(** * my-ai-agent: the diff utilities and the step store

    A shallow embedding of
      - [DiffParser] and [DiffManager] (src/utils/diffParser.ts,
        src/ui/diffManager.ts),
      - [StepStore] (src/state/stepStore.ts) and the part of
        [StepHistoryProvider] that reads it,
    followed by the properties stated about them.

    JavaScript strings are modelled by [string]; every operation used on
    them here ([split] on a line feed, [startsWith] with a one-character
    ASCII prefix, [substring(1)] after such a prefix) acts on code units
    below 128, so the byte view and the UTF-16 view agree.  Numbers are
    line counts and line numbers: they are modelled by [nat] (exact in
    JavaScript below 2^53).  [undefined], as read from an array past its
    end, is [None]. *)

From Stdlib Require Import String Ascii List Arith ZArith Lia DecimalString DecimalNat.
From stdpp Require Import gmap strings list.

(** ** JavaScript primitives used by the sources *)

Module JS.

Definition LF : ascii := "010"%char.

(** ["\n"] *)
Definition nl : string := String LF EmptyString.

(** [s.split(sep)] for a one-character separator: never the empty
    array, [""] gives [[""]]. *)
Fixpoint split (sep : ascii) (s : string) : list string :=
  match s with
  | EmptyString => [EmptyString]
  | String c r =>
      if decide (c = sep) then EmptyString :: split sep r
      else match split sep r with
           | h :: t => String c h :: t
           | [] => [String c EmptyString]
           end
  end.

(** [arr.join(sep)] on an array of strings. *)
Definition join (sep : string) (arr : list string) : string :=
  String.concat sep arr.

(** [s.startsWith(p)] *)
Fixpoint startsWith (p s : string) : bool :=
  match p with
  | EmptyString => true
  | String a p' =>
      match s with
      | EmptyString => false
      | String b s' => if decide (a = b) then startsWith p' s' else false
      end
  end.

(** [s.substring(1)] *)
Definition substring1 (s : string) : string :=
  match s with
  | EmptyString => EmptyString
  | String _ r => r
  end.

(** A value inside a template literal: [undefined] prints as such. *)
Definition template (v : option string) : string :=
  match v with
  | Some s => s
  | None => "undefined"
  end.

(** A number inside a template literal: its decimal digits. *)
Definition numToString (n : nat) : string :=
  NilEmpty.string_of_uint (Nat.to_uint n).

(** [parseInt] on a string of decimal digits (all it is applied to
    here: the groups [\d+] of the range-line pattern, or ['1']).  The
    number is read exactly; JavaScript does so below 2^53 and gives the
    nearest double above, which line numbers do not reach. *)
Definition parseInt (s : string) : nat :=
  match NilEmpty.uint_of_string s with
  | Some u => Nat.of_uint u
  | None => 0
  end.

(** [a || b] on strings: the empty string is falsy. *)
Definition orElse (a b : string) : string :=
  match a with
  | EmptyString => b
  | _ => a
  end.

Definition isDigit (c : ascii) : bool :=
  (48 <=? nat_of_ascii c) && (nat_of_ascii c <=? 57).

(** The longest prefix of digits, and what follows it. *)
Fixpoint spanDigits (s : string) : string * string :=
  match s with
  | EmptyString => (EmptyString, EmptyString)
  | String c r =>
      if isDigit c then
        let '(d, rest) := spanDigits r in (String c d, rest)
      else (EmptyString, s)
  end.

(** Removes a literal prefix, when it is there. *)
Fixpoint stripPrefix (p s : string) : option string :=
  match p with
  | EmptyString => Some s
  | String a p' =>
      match s with
      | EmptyString => None
      | String b s' => if decide (a = b) then stripPrefix p' s' else None
      end
  end.

(** An optional literal character ([,?]). *)
Definition optChar (c : ascii) (s : string) : string :=
  match s with
  | String b s' => if decide (b = c) then s' else s
  | EmptyString => s
  end.

End JS.

(** ** src/utils/diffParser.ts *)

Module DiffParser.
Import JS.

Inductive ChangeType := added | removed | modified.

Record LineChange := {
  lineNumber : nat;
  type : ChangeType;
  content : string
}.

Record DiffStats := {
  additions : nat;
  deletions : nat;
  changes : nat
}.

Record ParsedDiff := {
  addedLines : list LineChange;
  removedLines : list LineChange;
  modifiedLines : list LineChange;
  stats : DiffStats
}.

Record DiffHunk := {
  oldStart : nat;
  oldLines : nat;
  newStart : nat;
  newLines : nat;
  lines : list string
}.

(** [line.match(re)] for the range-line pattern of [extractHunks]: the
    literal "@@ -", one or more digits (group 1), an optional comma, any
    number of digits (group 2), the literal " +", one or more digits
    (group 3), an optional comma, any number of digits (group 4) and the
    literal " @@".  The result is the four groups, or [None] for [null].
    The pattern is anchored at the start only.
    A shorter first group can only hand its last digits to the second
    one, which leads to the same position in the line, so the
    leftmost-greedy scan below matches whenever backtracking would, with
    the groups that JavaScript reports. *)
Definition hunkMatch (line : string) : option (string * string * string * string) :=
  s1 ← stripPrefix "@@ -" line;
  let '(g1, s2) := spanDigits s1 in
  if decide (g1 = EmptyString) then None else
  let '(g2, s3) := spanDigits (optChar "," s2) in
  s4 ← stripPrefix " +" s3;
  let '(g3, s5) := spanDigits s4 in
  if decide (g3 = EmptyString) then None else
  let '(g4, s6) := spanDigits (optChar "," s5) in
  _ ← stripPrefix " @@" s6;
  Some (g1, g2, g3, g4).

Definition pushLine (h : DiffHunk) (line : string) : DiffHunk :=
  {| oldStart := oldStart h; oldLines := oldLines h;
     newStart := newStart h; newLines := newLines h;
     lines := lines h ++ [line] |}.

Definition flush (hunks : list DiffHunk) (currentHunk : option DiffHunk) : list DiffHunk :=
  match currentHunk with
  | Some h => hunks ++ [h]
  | None => hunks
  end.

(** One turn of the loop of [extractHunks], on the pair
    ([hunks], [currentHunk]). *)
Definition extractStep (st : list DiffHunk * option DiffHunk) (line : string)
  : list DiffHunk * option DiffHunk :=
  let '(hunks, currentHunk) := st in
  match hunkMatch line with
  | Some (g1, g2, g3, g4) =>
      (flush hunks currentHunk,
       Some {| oldStart := parseInt g1;
               oldLines := parseInt (orElse g2 "1");
               newStart := parseInt g3;
               newLines := parseInt (orElse g4 "1");
               lines := [] |})
  | None =>
      match currentHunk with
      | Some h =>
          if startsWith "+" line || startsWith "-" line || startsWith " " line
          then (hunks, Some (pushLine h line))
          else st
      | None => st
      end
  end.

Definition extractHunks (lines : list string) : list DiffHunk :=
  let '(hunks, currentHunk) := fold_left extractStep lines ([], None) in
  flush hunks currentHunk.

(** The state of the loops of [parseUnifiedDiff]. *)
Record ParseState := {
  psAdded : list LineChange;
  psRemoved : list LineChange;
  oldLineNum : nat;
  newLineNum : nat
}.

Definition parseLine (st : ParseState) (line : string) : ParseState :=
  if startsWith "+" line then
    {| psAdded := psAdded st ++
         [{| lineNumber := newLineNum st; type := added; content := substring1 line |}];
       psRemoved := psRemoved st;
       oldLineNum := oldLineNum st;
       newLineNum := S (newLineNum st) |}
  else if startsWith "-" line then
    {| psAdded := psAdded st;
       psRemoved := psRemoved st ++
         [{| lineNumber := oldLineNum st; type := removed; content := substring1 line |}];
       oldLineNum := S (oldLineNum st);
       newLineNum := newLineNum st |}
  else
    {| psAdded := psAdded st; psRemoved := psRemoved st;
       oldLineNum := S (oldLineNum st);
       newLineNum := S (newLineNum st) |}.

Definition parseHunk (acc : list LineChange * list LineChange) (hunk : DiffHunk)
  : list LineChange * list LineChange :=
  let st := fold_left parseLine (lines hunk)
              {| psAdded := fst acc; psRemoved := snd acc;
                 oldLineNum := oldStart hunk; newLineNum := newStart hunk |} in
  (psAdded st, psRemoved st).

Definition parseUnifiedDiff (diffText : string) : ParsedDiff :=
  let lines := split LF diffText in
  let hunks := extractHunks lines in
  let '(addedLines, removedLines) := fold_left parseHunk hunks ([], []) in
  let modifiedLines : list LineChange := [] in
  {| addedLines := addedLines;
     removedLines := removedLines;
     modifiedLines := modifiedLines;
     stats := {| additions := length addedLines;
                 deletions := length removedLines;
                 changes := length modifiedLines |} |}.

(** The arrays filled by the loop of [compareLineByLine]. *)
Record CompareState := {
  csAdded : list LineChange;
  csRemoved : list LineChange;
  csModified : list LineChange
}.

Definition compareStep (originalLines modifiedLines : list string)
    (st : CompareState) (i : nat) : CompareState :=
  match originalLines !! i, modifiedLines !! i with
  | None, Some modLine =>
      {| csAdded := csAdded st ++
           [{| lineNumber := i; type := added; content := modLine |}];
         csRemoved := csRemoved st; csModified := csModified st |}
  | Some origLine, None =>
      {| csAdded := csAdded st;
         csRemoved := csRemoved st ++
           [{| lineNumber := i; type := removed; content := origLine |}];
         csModified := csModified st |}
  | Some origLine, Some modLine =>
      if decide (origLine = modLine) then st
      else
        {| csAdded := csAdded st; csRemoved := csRemoved st;
           csModified := csModified st ++
             [{| lineNumber := i; type := modified; content := modLine |}] |}
  | None, None => st
  end.

Definition compareLineByLine (original modified : string) : ParsedDiff :=
  let originalLines := split LF original in
  let modifiedLines := split LF modified in
  let maxLength := Nat.max (length originalLines) (length modifiedLines) in
  let st := fold_left (compareStep originalLines modifiedLines) (seq 0 maxLength)
              {| csAdded := []; csRemoved := []; csModified := [] |} in
  {| addedLines := csAdded st;
     removedLines := csRemoved st;
     modifiedLines := csModified st;
     stats := {| additions := length (csAdded st);
                 deletions := length (csRemoved st);
                 changes := length (csModified st) |} |}.

(** The body of the loop of [generateUnifiedDiff]: what is pushed at
    index [i]. *)
Definition diffStep (originalLines modifiedLines : list string) (i : nat) : list string :=
  let origLine := originalLines !! i in
  let modLine := modifiedLines !! i in
  if decide (origLine = modLine) then [" " +:+ template origLine]
  else
    match origLine with Some o => ["-" +:+ o] | None => [] end ++
    match modLine with Some m => ["+" +:+ m] | None => [] end.

Definition rangeLine (oldCount newCount : nat) : string :=
  "@@ -1," +:+ numToString oldCount +:+ " +1," +:+ numToString newCount +:+ " @@".

(** The array [diff] of [generateUnifiedDiff], before it is joined. *)
Definition generateUnifiedDiffLines (original modified filePath : string) : list string :=
  let originalLines := split LF original in
  let modifiedLines := split LF modified in
  let diff := ["--- a/" +:+ filePath; "+++ b/" +:+ filePath] in
  if (0 <? length originalLines) || (0 <? length modifiedLines) then
    let maxLength := Nat.max (length originalLines) (length modifiedLines) in
    diff ++ [rangeLine (length originalLines) (length modifiedLines)]
         ++ flat_map (diffStep originalLines modifiedLines) (seq 0 maxLength)
  else diff.

Definition generateUnifiedDiff (original modified filePath : string) : string :=
  join nl (generateUnifiedDiffLines original modified filePath).

(** The default value of the parameter [filePath]. *)
Definition defaultFilePath : string := "file".

Record Stats := {
  st_additions : nat;
  st_deletions : nat;
  st_unchanged : nat
}.

Definition statsStep (originalLines modifiedLines : list string) (st : Stats) (i : nat) : Stats :=
  let origLine := originalLines !! i in
  let modLine := modifiedLines !! i in
  if decide (origLine = modLine) then
    {| st_additions := st_additions st; st_deletions := st_deletions st;
       st_unchanged := S (st_unchanged st) |}
  else if decide (origLine = None) then
    {| st_additions := S (st_additions st); st_deletions := st_deletions st;
       st_unchanged := st_unchanged st |}
  else if decide (modLine = None) then
    {| st_additions := st_additions st; st_deletions := S (st_deletions st);
       st_unchanged := st_unchanged st |}
  else
    {| st_additions := S (st_additions st); st_deletions := S (st_deletions st);
       st_unchanged := st_unchanged st |}.

Definition calculateStats (original modified : string) : Stats :=
  let originalLines := split LF original in
  let modifiedLines := split LF modified in
  let maxLength := Nat.max (length originalLines) (length modifiedLines) in
  fold_left (statsStep originalLines modifiedLines) (seq 0 maxLength)
    {| st_additions := 0; st_deletions := 0; st_unchanged := 0 |}.

End DiffParser.

(** ** src/ui/diffManager.ts *)

Module DiffManager.
Import JS.

Record ChangedLines := {
  cl_added : list nat;
  cl_removed : list nat
}.

Definition changedStep (originalLines modifiedLines : list string)
    (acc : ChangedLines) (i : nat) : ChangedLines :=
  let origLine := originalLines !! i in
  let modLine := modifiedLines !! i in
  if decide (origLine = modLine) then acc
  else
    {| cl_added :=
         cl_added acc ++ (if decide (modLine = None) then [] else [i]);
       cl_removed :=
         cl_removed acc ++
           (if decide (origLine = None) then []
            else if decide (modLine = None) then [i] else []) |}.

Definition calculateChangedLines (original modified : string) : ChangedLines :=
  let originalLines := split LF original in
  let modifiedLines := split LF modified in
  let maxLength := Nat.max (length originalLines) (length modifiedLines) in
  fold_left (changedStep originalLines modifiedLines) (seq 0 maxLength)
    {| cl_added := []; cl_removed := [] |}.

(** The editor host, as far as [applyChanges] sees it: the text of each
    file of the workspace, and the host's answers to the two edits the
    method submits. *)
Record Host := {
  files : gmap string string;
  createsFile : bool;
  appliesEdit : bool
}.

(** [edit.replace(uri, new Range(positionAt(a), positionAt(b)), text)],
    on the text of the document, with offsets for positions. *)
Definition replaceRange (doc : string) (a b : nat) (text : string) : string :=
  String.substring 0 a doc +:+ text +:+ String.substring b (String.length doc - b) doc.

Inductive Outcome :=
| Applied (files' : gmap string string) (highlighted : list nat)
| Failed (message : string) (files' : gmap string string).

(** [applyChanges(filePath, modifiedContent)]: the document is opened
    (and created empty when it cannot be), its whole text is replaced by
    [modifiedContent], and the lines that [calculateChangedLines] calls
    added are highlighted.  Every error is rethrown with the prefix
    "Failed to apply changes: "; when the document cannot be opened, the
    text after the prefix is the host's, for which a fixed one stands
    here.  A failure leaves the workspace as it is at the throw: a file
    that was created before the edit was refused stays, empty. *)
Definition applyChanges (h : Host) (filePath modifiedContent : string) : Outcome :=
  let opened :=
    match files h !! filePath with
    | Some text => Some (text, files h)
    | None =>
        if createsFile h
        then Some (EmptyString, <[filePath := EmptyString]> (files h))
        else None
    end in
  match opened with
  | None => Failed "Failed to apply changes: cannot open the document" (files h)
  | Some (originalContent, workspace) =>
      let changedLines := calculateChangedLines originalContent modifiedContent in
      if appliesEdit h then
        Applied
          (<[filePath := replaceRange originalContent 0
                           (String.length originalContent) modifiedContent]> workspace)
          (cl_added changedLines)
      else Failed "Failed to apply changes: Failed to apply workspace edit" workspace
  end.

End DiffManager.

(** ** The vocabulary of the specification, read on the code

  A body line of a hunk is an edit operation: [parseUnifiedDiff] takes a
  line that starts with '+' as an addition, one that starts with '-' as
  a removal, and any other line as context. *)

Module Ops.
Import JS DiffParser.

Inductive EditOp :=
| Equal (line : string)
| Insert (line : string)
| Delete (line : string).

Definition opOfLine (line : string) : EditOp :=
  if startsWith "+" line then Insert (substring1 line)
  else if startsWith "-" line then Delete (substring1 line)
  else Equal (substring1 line).

Definition hunkOps (h : DiffHunk) : list EditOp := map opOfLine (lines h).

(** The operations of all the hunks of a diff, in order. *)
Definition allOps (hunks : list DiffHunk) : list EditOp :=
  concat (map hunkOps hunks).

Definition isEqual (op : EditOp) : bool :=
  match op with Equal _ => true | _ => false end.
Definition isInsert (op : EditOp) : bool :=
  match op with Insert _ => true | _ => false end.
Definition isDelete (op : EditOp) : bool :=
  match op with Delete _ => true | _ => false end.

Definition opLine (op : EditOp) : string :=
  match op with Equal s | Insert s | Delete s => s end.

(** The lines of the old side, of the new side, and the unchanged ones. *)
Definition oldSide (ops : list EditOp) : list string :=
  map opLine (List.filter (fun op => negb (isInsert op)) ops).
Definition newSide (ops : list EditOp) : list string :=
  map opLine (List.filter (fun op => negb (isDelete op)) ops).
Definition equalLines (ops : list EditOp) : list string :=
  map opLine (List.filter isEqual ops).

Definition countOps (p : EditOp -> bool) (ops : list EditOp) : nat :=
  length (List.filter p ops).

(** The hunks of the diff of two texts: what [extractHunks] reads in the
    output of [generateUnifiedDiff]. *)
Definition compute (original modified : string) : list DiffHunk :=
  extractHunks (split LF (generateUnifiedDiff original modified defaultFilePath)).

(** The body written by the loop of [generateUnifiedDiff]. *)
Definition body (originalLines modifiedLines : list string) : list string :=
  flat_map (diffStep originalLines modifiedLines)
    (seq 0 (Nat.max (length originalLines) (length modifiedLines))).

(** A common subsequence of two sequences that no other one exceeds in
    length. *)
Definition isLCS (l a b : list string) : Prop :=
  sublist l a /\ sublist l b /\
  forall l', sublist l' a -> sublist l' b -> length l' <= length l.

(** The empty result of [parseUnifiedDiff]. *)
Definition noChanges : ParsedDiff :=
  {| addedLines := []; removedLines := []; modifiedLines := [];
     stats := {| additions := 0; deletions := 0; changes := 0 |} |}.

(** The lines that are the same at the same index. *)
Fixpoint positionalMatches (a b : list string) : list string :=
  match a, b with
  | x :: a', y :: b' =>
      if decide (x = y) then x :: positionalMatches a' b'
      else positionalMatches a' b'
  | _, _ => []
  end.

End Ops.

(** ** src/state/stepStore.ts

  Arrays and step objects are JavaScript references: the store keeps a
  reference to its array in the field [steps], the array keeps references
  to step objects, and [updateStepStatus] writes into the object it
  found.  Both live in heaps, so that a copy of the array and the array
  itself are told apart. *)

Module StepStore.
Import JS.

(** Values a step object can hold: what [JSON.parse] produces, the
    [Date] built from such a value, and [undefined]. *)
#[warnings="-register-all"]
Inductive Value :=
| VUndefined
| VNull
| VBool (b : bool)
| VNum (literal : string)
| VStr (s : string)
| VDate (from : Value)
| VArr (items : list Value)
| VObj (props : list (string * Value)).

(** An object: its own properties, in insertion order. *)
Definition Obj := list (string * Value).

Fixpoint getProp (o : Obj) (k : string) : Value :=
  match o with
  | [] => VUndefined
  | (k', v) :: o' => if decide (k' = k) then v else getProp o' k
  end.

Fixpoint setProp (o : Obj) (k : string) (v : Value) : Obj :=
  match o with
  | [] => [(k, v)]
  | (k', v') :: o' =>
      if decide (k' = k) then (k, v) :: o' else (k', v') :: setProp o' k v
  end.

(** [x === s] for a string [s]. *)
Definition isString (x : Value) (s : string) : bool :=
  match x with
  | VStr s' => bool_decide (s' = s)
  | _ => false
  end.

Definition loc := nat.

(** One invocation of a subscribed callback, with the steps it finds in
    the store while it runs. *)
Record Call := {
  callee : nat;
  seen : list Obj
}.

Record State := {
  objects : gmap loc Obj;
  arrays : gmap loc (list loc);
  steps : loc;
  listeners : list nat;
  calls : list Call
}.

(** The array [this.steps], and the steps it refers to. *)
Definition contents (st : State) : list loc :=
  default [] (arrays st !! steps st).

Definition deref (st : State) (r : loc) : Obj :=
  default [] (objects st !! r).

Definition view (st : State) : list Obj :=
  map (deref st) (contents st).

(** [this._onDidChangeSteps.fire()]: every subscribed callback runs, now. *)
Definition fire (st : State) : State :=
  {| objects := objects st; arrays := arrays st; steps := steps st;
     listeners := listeners st;
     calls := calls st ++
              map (fun l => {| callee := l; seen := view st |}) (listeners st) |}.

(** [store.onDidChangeSteps(listener)] *)
Definition onDidChangeSteps (listener : nat) (st : State) : State :=
  {| objects := objects st; arrays := arrays st; steps := steps st;
     listeners := listeners st ++ [listener];
     calls := calls st |}.

Definition setArray (st : State) (a : loc) (l : list loc) : State :=
  {| objects := objects st; arrays := <[a := l]> (arrays st); steps := steps st;
     listeners := listeners st; calls := calls st |}.

Definition setObject (st : State) (r : loc) (o : Obj) : State :=
  {| objects := <[r := o]> (objects st); arrays := arrays st; steps := steps st;
     listeners := listeners st; calls := calls st |}.

Definition setSteps (st : State) (a : loc) : State :=
  {| objects := objects st; arrays := arrays st; steps := a;
     listeners := listeners st; calls := calls st |}.

(** A new array. *)
Definition allocArray (st : State) (l : list loc) : loc * State :=
  let a := fresh (dom (arrays st)) in (a, setArray st a l).

(** A new object. *)
Definition allocObject (st : State) (o : Obj) : loc * State :=
  let r := fresh (dom (objects st)) in (r, setObject st r o).

(** [new StepStore()] *)
Definition create : State :=
  {| objects := ∅; arrays := {[ 0 := [] ]}; steps := 0;
     listeners := []; calls := [] |}.

Definition addStep (step : loc) (st : State) : State :=
  fire (setArray st (steps st) (contents st ++ [step])).

(** [[...this.steps]]: a new array with the same elements. *)
Definition getAllSteps (st : State) : loc * State :=
  allocArray st (contents st).

Definition hasId (st : State) (id : string) (r : loc) : bool :=
  isString (getProp (deref st r) "id") id.

(** [this.steps.find(step => step.id === id)] *)
Definition getStepById (id : string) (st : State) : option loc :=
  List.find (hasId st id) (contents st).

(** [this.steps.findIndex(step => step.id === id)], [None] for -1. *)
Fixpoint findIndex {A} (p : A -> bool) (l : list A) : option nat :=
  match l with
  | [] => None
  | x :: l' => if p x then Some 0 else S <$> findIndex p l'
  end.

Definition getStepsForFile (filePath : string) (st : State) : loc * State :=
  allocArray st
    (List.filter (fun r => isString (getProp (deref st r) "filePath") filePath)
       (contents st)).

Definition getStepsByStatus (status : string) (st : State) : loc * State :=
  allocArray st
    (List.filter (fun r => isString (getProp (deref st r) "status") status)
       (contents st)).

Definition updateStepStatus (id status : string) (st : State) : State :=
  match getStepById id st with
  | Some step =>
      fire (setObject st step (setProp (deref st step) "status" (VStr status)))
  | None => st
  end.

(** [arr.splice(index, 1)] *)
Definition splice1 {A} (index : nat) (arr : list A) : list A :=
  firstn index arr ++ skipn (S index) arr.

Definition removeStep (id : string) (st : State) : State :=
  match findIndex (hasId st id) (contents st) with
  | Some index => fire (setArray st (steps st) (splice1 index (contents st)))
  | None => st
  end.

Definition clear (st : State) : State :=
  let '(a, st1) := allocArray st [] in
  fire (setSteps st1 a).

Definition getStepCount (st : State) : nat := length (contents st).

(** A continuation byte of UTF-8. *)
Definition isCont (b : ascii) : bool :=
  (128 <=? N_of_ascii b)%N && (N_of_ascii b <? 192)%N.

(** The three bytes that hold one code unit above 0x7FF. *)
Definition unitBytes (u : N) : string :=
  String (ascii_of_N (224 + u / 4096))
    (String (ascii_of_N (128 + (u / 64) mod 64))
       (String (ascii_of_N (128 + u mod 64)) EmptyString)).

(** The UTF-16 code units of a string, each as a string of its own.  The
    bytes of a [string] are the UTF-8 form of the JavaScript string: a
    sequence of one, two or three bytes is one code unit, a sequence of
    four bytes is a pair of surrogates, each of them written on three
    bytes as lone surrogates are.  A byte that starts no well-formed
    sequence counts for itself. *)
Fixpoint codeUnits (s : string) : list string :=
  match s with
  | EmptyString => []
  | String b0 r0 =>
      let n0 := N_of_ascii b0 in
      let single := String b0 EmptyString :: codeUnits r0 in
      if (n0 <? 192)%N then single
      else if (n0 <? 224)%N then
        match r0 with
        | String b1 r1 =>
            if isCont b1 then String b0 (String b1 EmptyString) :: codeUnits r1
            else single
        | _ => single
        end
      else if (n0 <? 240)%N then
        match r0 with
        | String b1 (String b2 r2) =>
            if isCont b1 && isCont b2
            then String b0 (String b1 (String b2 EmptyString)) :: codeUnits r2
            else single
        | _ => single
        end
      else if (n0 <? 248)%N then
        match r0 with
        | String b1 (String b2 (String b3 r3)) =>
            if isCont b1 && isCont b2 && isCont b3 then
              let cp := ((n0 mod 8) * 262144 + (N_of_ascii b1 mod 64) * 4096
                         + (N_of_ascii b2 mod 64) * 64 + N_of_ascii b3 mod 64)%N in
              let v := (cp - 65536)%N in
              unitBytes (55296 + v / 1024) :: unitBytes (56320 + v mod 1024)
                :: codeUnits r3
            else single
        | _ => single
        end
      else single
  end.

(** [{...step}]: the own enumerable properties of a parsed value; those of
    a string are its code units, under their indices. *)
Definition spread (step : Value) : Obj :=
  match step with
  | VObj props => props
  | VArr items => imap (fun i v => (numToString i, v)) items
  | VStr s => imap (fun i u => (numToString i, VStr u)) (codeUnits s)
  | _ => []
  end.

(** [step.timestamp]; reading a property of [null] throws. *)
Definition readTimestamp (step : Value) : option Value :=
  match step with
  | VNull | VUndefined => None
  | VObj props => Some (getProp props "timestamp")
  | _ => Some VUndefined
  end.

(** The object has an own property of that name. *)
Definition hasKey (k : string) (o : Obj) : bool :=
  existsb (fun kv => bool_decide (fst kv = k)) o.

(** The conversion of a parsed value to a primitive succeeds.  No parsed
    value is a function: an object with an own property [toString] can
    neither use it nor the inherited one, and the inherited [valueOf]
    gives the object back, so its conversion throws; an array is joined,
    which converts each of its elements but [null] to a string. *)
Fixpoint convertible (v : Value) : bool :=
  match v with
  | VObj props => negb (hasKey "toString" props)
  | VArr items =>
      (fix each (l : list Value) : bool :=
         match l with
         | [] => true
         | x :: l' => convertible x && each l'
         end) items
  | _ => true
  end.

(** [new Date(v)]: an object or an array is first converted to a
    primitive, which can throw. *)
Definition newDate (v : Value) : option Value :=
  if convertible v then Some (VDate v) else None.

(** [({...step, timestamp: new Date(step.timestamp)})] *)
Definition revive (step : Value) : option Obj :=
  ts ← readTimestamp step;
  date ← newDate ts;
  Some (setProp (spread step) "timestamp" date).

(** [imported.map(step => ...)]: [None] when the callback throws. *)
Definition reviveAll (imported : list Value) : option (list Obj) :=
  mapM revive imported.

Fixpoint allocObjects (st : State) (os : list Obj) : list loc * State :=
  match os with
  | [] => ([], st)
  | o :: os' =>
      let '(r, st1) := allocObject st o in
      let '(rs, st2) := allocObjects st1 os' in
      (r :: rs, st2)
  end.

Inductive Result :=
| Returned (st : State)
| Thrown (message : string) (st : State).

Definition stateOf (r : Result) : State :=
  match r with Returned st | Thrown _ st => st end.

(** [importFromJSON(json)], on what [JSON.parse(json)] gives: [None] when
    it throws a syntax error, the parsed value otherwise. *)
Definition importFromJSON (parsed : option Value) (st : State) : Result :=
  match parsed with
  | None => Thrown "Invalid JSON format for steps import" st
  | Some (VArr imported) =>
      match reviveAll imported with
      | None => Thrown "Invalid JSON format for steps import" st
      | Some os =>
          let '(rs, st1) := allocObjects st os in
          let '(a, st2) := allocArray st1 rs in
          Returned (fire (setSteps st2 a))
      end
  | Some _ => Returned st
  end.

Definition dispose (st : State) : State :=
  {| objects := objects st; arrays := arrays st; steps := steps st;
     listeners := []; calls := calls st |}.

(** The methods of the store, as calls. *)
Inductive Op :=
| AddStep (step : loc)
| GetAllSteps
| GetStepById (id : string)
| GetStepsForFile (filePath : string)
| GetStepsByStatus (status : string)
| UpdateStepStatus (id status : string)
| RemoveStep (id : string)
| Clear
| GetStepCount
| GetStatistics
| ExportToJSON
| ImportFromJSON (parsed : option Value).

Definition run (op : Op) (st : State) : Result :=
  match op with
  | AddStep step => Returned (addStep step st)
  | GetAllSteps => Returned (snd (getAllSteps st))
  | GetStepById _ => Returned st
  | GetStepsForFile filePath => Returned (snd (getStepsForFile filePath st))
  | GetStepsByStatus status => Returned (snd (getStepsByStatus status st))
  | UpdateStepStatus id status => Returned (updateStepStatus id status st)
  | RemoveStep id => Returned (removeStep id st)
  | Clear => Returned (clear st)
  | GetStepCount => Returned st
  | GetStatistics =>
      Returned (snd (getStepsByStatus "pending"
                 (snd (getStepsByStatus "rejected"
                    (snd (getStepsByStatus "accepted" st))))))
  | ExportToJSON => Returned st
  | ImportFromJSON parsed => importFromJSON parsed st
  end.

Definition isNullish (v : Value) : bool :=
  match v with
  | VNull | VUndefined => true
  | _ => false
  end.

(** What [step.timestamp] gives for an element that is not [null]. *)
Definition timestampOf (step : Value) : Value :=
  match step with
  | VObj props => getProp props "timestamp"
  | _ => VUndefined
  end.

(** The element can be turned into a step: it is not [null] and its
    timestamp can be converted to a primitive. *)
Definition revivable (step : Value) : bool :=
  negb (isNullish step) && convertible (timestampOf step).

(** The calls that change the store: [addStep], [updateStepStatus] and
    [removeStep] on an id that is there, [clear], and [importFromJSON] of
    an array whose elements can all be turned into steps. *)
Definition mutates (op : Op) (st : State) : bool :=
  match op with
  | AddStep _ => true
  | UpdateStepStatus id _ => bool_decide (is_Some (getStepById id st))
  | RemoveStep id => bool_decide (is_Some (findIndex (hasId st id) (contents st)))
  | Clear => true
  | ImportFromJSON (Some (VArr imported)) => forallb revivable imported
  | _ => false
  end.

(** The store holds an array. *)
Definition wf (st : State) : Prop := is_Some (arrays st !! steps st).

(** A mutation of an array in place, such as [arr.reverse()]. *)
Definition mutateArray (a : loc) (f : list loc -> list loc) (st : State) : State :=
  match arrays st !! a with
  | Some l => setArray st a (f l)
  | None => st
  end.

End StepStore.

(** ** StepHistoryProvider (src/providers/stepHistoryProvider.ts) *)

Module StepHistoryProvider.
Import StepStore.

(** [getChildren(element)]: nothing below a step; at the root, the copy
    that [getAllSteps] returns, reversed in place.  The result is the
    array handed to the tree view (a new empty one below a step). *)
Definition getChildren (element : option loc) (st : State) : loc * State :=
  match element with
  | Some _ => allocArray st []
  | None =>
      let '(steps, st1) := getAllSteps st in
      (steps, mutateArray steps (@rev loc) st1)
  end.

End StepHistoryProvider.

(** ** Auxiliary notions for the statements *)

Module Aux.
Import JS.

(** A string without line feed. *)
Fixpoint noLF (s : string) : bool :=
  match s with
  | EmptyString => true
  | String c r => if decide (c = LF) then false else noLF r
  end.

(** The first character of a string is one of those of [cs]. *)
Definition headIn (cs : list ascii) (s : string) : bool :=
  match s with
  | EmptyString => false
  | String c _ => bool_decide (c ∈ cs)
  end.

(** The string does not begin with a digit. *)
Definition noDigitAhead (s : string) : bool :=
  match s with
  | EmptyString => true
  | String c _ => negb (isDigit c)
  end.

(** Index [i] holds a line of [n] that is not the line [i] of [o]. *)
Definition addedAt (o n : list string) (i : nat) : bool :=
  bool_decide (o !! i <> n !! i /\ n !! i <> None).

(** Index [i] holds a line of [o], and [n] has no line [i]. *)
Definition removedAt (o n : list string) (i : nat) : bool :=
  bool_decide (o !! i <> None /\ n !! i = None).

(** The additions that [parseUnifiedDiff] reports for the body written
    for old lines [o] and new lines [n], numbered from [k]: each new line
    that is not the old line at its index. *)
Fixpoint addedFrom (k : nat) (o n : list string) : list DiffParser.LineChange :=
  match n with
  | [] => []
  | y :: n' =>
      (if decide (head o = Some y) then []
       else [ {| DiffParser.lineNumber := k; DiffParser.type := DiffParser.added;
                 DiffParser.content := y |} ])
      ++ addedFrom (S k) (tail o) n'
  end.

(** The removals, likewise: each old line that is not the new line at
    its index. *)
Fixpoint removedFrom (k : nat) (o n : list string) : list DiffParser.LineChange :=
  match o with
  | [] => []
  | x :: o' =>
      (if decide (head n = Some x) then []
       else [ {| DiffParser.lineNumber := k; DiffParser.type := DiffParser.removed;
                 DiffParser.content := x |} ])
      ++ removedFrom (S k) o' (tail n)
  end.

(** "a\nb\nc" and "a\nx\nc" *)
Definition abc : string := "a" +:+ nl +:+ "b" +:+ nl +:+ "c".
Definition axc : string := "a" +:+ nl +:+ "x" +:+ nl +:+ "c".

End Aux.

(** ** The rest of the sources that the statements below are about *)

(** *** Primitives *)

Module JSMore.
Import JS.

(** [arr.pop()] as a value: the last element, [undefined] on the empty
    array. *)
Definition pop (arr : list string) : option string := last arr.

(** [v || fallback] for a string or [undefined]. *)
Definition orString (v : option string) (fallback : string) : string :=
  match v with
  | Some s => orElse s fallback
  | None => fallback
  end.

(** A number that is an integer or [NaN] ([None]). *)
Definition num := option Z.

(** [a - b] *)
Definition nsub (a b : num) : num :=
  match a, b with
  | Some x, Some y => Some (x - y)%Z
  | _, _ => None
  end.

(** [Math.floor(a / k)] for a positive integer [k]. *)
Definition floorDiv (a : num) (k : Z) : num :=
  match a with
  | Some x => Some (x / k)%Z
  | None => None
  end.

(** [a < k]: false on [NaN]. *)
Definition nlt (a : num) (k : Z) : bool :=
  match a with
  | Some x => (x <? k)%Z
  | None => false
  end.

(** A number inside a template literal. *)
Definition nToString (a : num) : string :=
  match a with
  | Some x => NilEmpty.string_of_int (Z.to_int x)
  | None => "NaN"
  end.

End JSMore.

(** *** src/utils/diffParser.ts: [formatStats] *)

Module DiffFormat.
Import JS DiffParser.

Definition formatStats (stats : Stats) : string :=
  let parts :=
    (if 0 <? st_additions stats
     then ["+" +:+ numToString (st_additions stats) +:+ " addition"
             +:+ (if decide (st_additions stats = 1) then "" else "s")]
     else [])
    ++
    (if 0 <? st_deletions stats
     then ["-" +:+ numToString (st_deletions stats) +:+ " deletion"
             +:+ (if decide (st_deletions stats = 1) then "" else "s")]
     else []) in
  if 0 <? length parts then join ", " parts else "No changes".

End DiffFormat.

(** *** src/providers/stepHistoryProvider.ts: [StepTreeItem] *)

Module StepTreeItem.
Import JS JSMore.

(** [formatRelativeTime(date)], with the clock read by [new Date()] as
    [now]; both are times in milliseconds, the one of [date] being [NaN]
    for an invalid date.  Quotients of integers below 2^52 by 60000, 60
    and 1440 are floored exactly. *)
Definition formatRelativeTime (now : Z) (date : num) : string :=
  let diffMs := nsub (Some now) date in
  let diffMins := floorDiv diffMs 60000 in
  if nlt diffMins 1 then "just now"
  else if nlt diffMins 60 then nToString diffMins +:+ "m ago"
  else if nlt diffMins 1440 then
    let hours := floorDiv diffMins 60 in
    nToString hours +:+ "h ago"
  else
    let days := floorDiv diffMins 1440 in
    nToString days +:+ "d ago".

(** [step.filePath.split('/').pop() || step.filePath], the file name in
    [buildDescription]. *)
Definition fileName (filePath : string) : string :=
  orString (pop (split "/" filePath)) filePath.

End StepTreeItem.

(** *** src/state/stepStore.ts: what [getStatistics] returns *)

Module StoreQueries.
Import JS StepStore.

Record Statistics := {
  total : nat;
  accepted : nat;
  rejected : nat;
  pending : nat
}.

(** The elements of an array. *)
Definition arrayAt (st : State) (a : loc) : list loc :=
  default [] (arrays st !! a).

Definition getStatistics (st : State) : Statistics * State :=
  let total := length (contents st) in
  let '(a, st1) := getStepsByStatus "accepted" st in
  let '(r, st2) := getStepsByStatus "rejected" st1 in
  let '(p, st3) := getStepsByStatus "pending" st2 in
  ({| total := total;
      accepted := length (arrayAt st1 a);
      rejected := length (arrayAt st2 r);
      pending := length (arrayAt st3 p) |}, st3).

(** [step.status === status] for a step of the store. *)
Definition hasStatus (st : State) (status : string) (r : loc) : bool :=
  isString (getProp (deref st r) "status") status.

(** Calls made one after the other; a call that throws leaves the store
    to the next one as it is. *)
Definition runAll (ops : list Op) (st : State) : State :=
  fold_left (fun s op => stateOf (run op s)) ops st.

End StoreQueries.

(** *** src/extension.ts: the command [aiAgent.revertToStep] *)

Module Extension.
Import JS DiffManager.

Record DiffInfo := {
  di_original : string;
  di_modified : string
}.

(** The argument of the command, as the [Step] interface types what the
    handler reads of it; [None] where the handler guards against a missing
    value. *)
Record StepArg := {
  sa_filePath : string;
  sa_diff : option DiffInfo
}.

Inductive Shown :=
| Nothing
| Information (message : string)
| ErrorMessage (message : string).

(** The handler, with the answer to its modal question as [confirm]
    ([None] when the question is dismissed, and never asked when the step
    or its path is missing).  The answer of the host to the edit is not
    looked at.  The text after "Failed to revert: " is the host's, for
    which a fixed one stands here. *)
Definition revertToStep (h : Host) (step : option StepArg) (confirm : option string)
  : gmap string string * Shown :=
  match step with
  | None => (files h, Nothing)
  | Some step =>
      if decide (sa_filePath step = EmptyString) then (files h, Nothing)
      else if decide (confirm = Some "Revert") then
        match sa_diff step with
        | None => (files h, Nothing)
        | Some diff =>
            if decide (di_original diff = EmptyString) then (files h, Nothing)
            else
              match files h !! sa_filePath step with
              | None => (files h, ErrorMessage "Failed to revert: cannot open the document")
              | Some text =>
                  let edited :=
                    <[sa_filePath step :=
                        replaceRange text 0 (String.length text) (di_original diff)]>
                      (files h) in
                  (if appliesEdit h then edited else files h,
                   Information "File reverted successfully")
              end
        end
      else (files h, Nothing)
  end.

End Extension.

(** *** src/providers/chatProvider.ts: accepting and rejecting a proposal *)

Module ChatViewProvider.
Import JS DiffManager StepStore.

Record CodeChangeProposal := {
  cp_filePath : string;
  cp_originalContent : string;
  cp_modifiedContent : string;
  cp_diff : string;
  cp_description : string
}.

(** What is posted to the webview. *)
Inductive Posted :=
| PostedProposal (proposal : CodeChangeProposal)
| PostedProposalAccepted
| PostedProposalRejected.

(** What is shown to the user. *)
Inductive Notice :=
| InformationNotice (message : string)
| ErrorNotice (message : string).

(** The provider with what it acts upon: its view, the pending
    proposal, the step store, the workspace, and what it has posted and
    shown so far. *)
Record Provider := {
  hasView : bool;
  currentProposal : option CodeChangeProposal;
  stepStore : State;
  host : Host;
  posted : list Posted;
  notices : list Notice
}.

(** The step object built for a proposal; [idClock] is what
    [Date.now()] returns and [tsClock] the time of [new Date()]. *)
Definition makeStep (idClock tsClock : nat) (model status : string)
    (p : CodeChangeProposal) : Obj :=
  [ ("id", VStr (numToString idClock));
    ("timestamp", VDate (VNum (numToString tsClock)));
    ("filePath", VStr (cp_filePath p));
    ("diff", VObj [ ("original", VStr (cp_originalContent p));
                    ("modified", VStr (cp_modifiedContent p)) ]);
    ("model", VStr model);
    ("status", VStr status);
    ("description", VStr (cp_description p)) ].

(** The case ['proposal'] of [handleStreamChunk]. *)
Definition handleProposalChunk (proposal : option CodeChangeProposal) (c : Provider)
  : Provider :=
  if negb (hasView c) then c
  else
    match proposal with
    | None => c
    | Some p =>
        {| hasView := hasView c; currentProposal := Some p;
           stepStore := stepStore c; host := host c;
           posted := posted c ++ [PostedProposal p];
           notices := notices c |}
    end.

(** [acceptCurrentProposal()] is asynchronous: it runs up to its [await]
    on [applyChanges], other handlers may run while the host works, and
    it goes on with the provider as it is then.  It is modelled in the
    three parts that the event loop runs one at a time; [applyChanges]
    is one step of the host.

    [acceptBegin] is the part before the [await]: the guard, and the
    arguments of [applyChanges] read from the proposal. *)
Definition acceptBegin (c : Provider) : option (string * string) :=
  match currentProposal c with
  | None => None
  | Some p =>
      if negb (hasView c) then None
      else Some (cp_filePath p, cp_modifiedContent p)
  end.

Definition withFiles (c : Provider) (files' : gmap string string) : Provider :=
  {| hasView := hasView c; currentProposal := currentProposal c;
     stepStore := stepStore c;
     host := {| files := files'; createsFile := createsFile (host c);
                appliesEdit := appliesEdit (host c) |};
     posted := posted c; notices := notices c |}.

(** The host's work during the [await]: [applyChanges] with the
    arguments read before it.  The result is the message of the error
    thrown, if one is, and the provider with the workspace as
    [applyChanges] leaves it. *)
Definition acceptEdit (args : string * string) (c : Provider)
  : option string * Provider :=
  match applyChanges (host c) (fst args) (snd args) with
  | Applied files' _ => (None, withFiles c files')
  | Failed message files' => (Some message, withFiles c files')
  end.

(** The [catch] of [acceptCurrentProposal]. *)
Definition showFailure (message : string) (c : Provider) : Provider :=
  {| hasView := hasView c; currentProposal := currentProposal c;
     stepStore := stepStore c; host := host c;
     posted := posted c;
     notices := notices c ++ [ErrorNotice ("Failed to apply changes: " +:+ message)] |}.

(** The part after the [await]; [model] is the configured model.  The
    proposal and the view are read again, from the provider as it is
    now: reading [filePath] of a proposal that is [null] by now throws a
    [TypeError], and so does, after the step was added, reading
    [webview] of a view that is not there.  The messages of these errors
    are the engine's (here V8's). *)
Definition acceptResume (idClock tsClock : nat) (model : string)
    (thrown : option string) (c : Provider) : Provider :=
  match thrown with
  | Some message => showFailure message c
  | None =>
      match currentProposal c with
      | None => showFailure "Cannot read properties of null (reading 'filePath')" c
      | Some p =>
          let '(step, st1) :=
            allocObject (stepStore c) (makeStep idClock tsClock model "accepted" p) in
          if hasView c then
            {| hasView := hasView c; currentProposal := None;
               stepStore := addStep step st1;
               host := host c;
               posted := posted c ++ [PostedProposalAccepted];
               notices := notices c ++ [InformationNotice "Changes applied successfully"] |}
          else
            showFailure "Cannot read properties of undefined (reading 'webview')"
              {| hasView := hasView c; currentProposal := currentProposal c;
                 stepStore := addStep step st1;
                 host := host c; posted := posted c; notices := notices c |}
      end
  end.

(** A call of [acceptCurrentProposal()] during which no other handler
    runs. *)
Definition acceptCurrentProposal (idClock tsClock : nat) (model : string) (c : Provider)
  : Provider :=
  match acceptBegin c with
  | None => c
  | Some args =>
      let '(thrown, c1) := acceptEdit args c in
      acceptResume idClock tsClock model thrown c1
  end.


(** [rejectCurrentProposal()] *)
Definition rejectCurrentProposal (idClock tsClock : nat) (model : string) (c : Provider)
  : Provider :=
  match currentProposal c with
  | None => c
  | Some p =>
      if negb (hasView c) then c
      else
        let '(step, st1) :=
          allocObject (stepStore c) (makeStep idClock tsClock model "rejected" p) in
        {| hasView := hasView c; currentProposal := None;
           stepStore := addStep step st1;
           host := host c;
           posted := posted c ++ [PostedProposalRejected];
           notices := notices c ++ [InformationNotice "Changes rejected"] |}
  end.

End ChatViewProvider.

(** *** src/providers/inlineProvider.ts: [getContextLines] *)

Module InlineCompletionProvider.
Import JS.

(** [getContextLines(document, currentLine)], on the lines of the
    document; [document.lineAt(i)] throws past the last line, which gives
    [None]. *)
Definition getContextLines (document : list string) (currentLine : nat) : option string :=
  let startLine := Nat.max 0 (currentLine - 20) in
  lines ← mapM (fun i => document !! i) (seq startLine (currentLine - startLine));
  Some (join nl lines).

End InlineCompletionProvider.

(** *** Further notions for the statements *)

Module AuxMore.
Import JS DiffParser.

(** A reported line whose number is the index, from 0, at which the
    lines [ls] hold its content. *)
Definition atIndexOf (ls : list string) (c : LineChange) : Prop :=
  ls !! lineNumber c = Some (content c).

(** A range line with both counts, followed by any text. *)
Definition rangeText (oldStart oldCount newStart newCount : nat) (rest : string) : string :=
  "@@ -" +:+ numToString oldStart +:+ "," +:+ numToString oldCount +:+
  " +" +:+ numToString newStart +:+ "," +:+ numToString newCount +:+ " @@" +:+ rest.

(** A range line without counts, followed by any text. *)
Definition shortRangeText (oldStart newStart : nat) (rest : string) : string :=
  "@@ -" +:+ numToString oldStart +:+ " +" +:+ numToString newStart +:+ " @@" +:+ rest.

(** A string without the character [c]. *)
Fixpoint noChar (c : ascii) (s : string) : bool :=
  match s with
  | EmptyString => true
  | String a r => if decide (a = c) then false else noChar c r
  end.

(** The line starts with '+', '-' or a space. *)
Definition isBodyLine (line : string) : bool :=
  startsWith "+" line || startsWith "-" line || startsWith " " line.

End AuxMore.

(** * Properties of the string primitives *)

Module StringFacts.
Import JS Aux.

Lemma split_nonempty sep s : split sep s <> [].
Proof.
  destruct s as [|c r]; simpl; [discriminate|].
  case_decide; [discriminate|].
  destruct (split sep r); discriminate.
Qed.

Lemma split_length_pos sep s : 0 < length (split sep s).
Proof.
  pose proof (split_nonempty sep s) as H.
  destruct (split sep s); [congruence | simpl; lia].
Qed.

Lemma split_noLF s : noLF s = true -> split LF s = [s].
Proof.
  induction s as [|c r IH]; simpl; [reflexivity|].
  case_decide; [discriminate|].
  intros Hs. rewrite (IH Hs). reflexivity.
Qed.

Lemma split_app_LF s r :
  noLF s = true -> split LF (s +:+ String LF r) = s :: split LF r.
Proof.
  induction s as [|c s IH]; simpl.
  - intros _. destruct (decide (LF = LF)); [reflexivity | congruence].
  - case_decide; [discriminate|].
    intros Hs. rewrite (IH Hs). reflexivity.
Qed.

Lemma split_parts_noLF s : Forall (fun l => noLF l = true) (split LF s).
Proof.
  induction s as [|c r IH]; simpl.
  - constructor; [reflexivity | constructor].
  - case_decide.
    + constructor; [reflexivity | exact IH].
    + destruct (split LF r) as [|h t].
      * constructor; [|constructor]. simpl. case_decide; [congruence | reflexivity].
      * inversion IH; subst. constructor; [|assumption].
        simpl. case_decide; [congruence | assumption].
Qed.

(** Splitting what was joined gives the parts back, when no part holds a
    line feed and there is at least one part. *)
Lemma split_join l :
  l <> [] -> Forall (fun s => noLF s = true) l -> split LF (join nl l) = l.
Proof.
  induction l as [|x l IH]; [congruence|].
  intros _ Hall. inversion Hall as [|? ? Hx Hl]; subst.
  destruct l as [|y l].
  - simpl. apply split_noLF; assumption.
  - change (join nl (x :: y :: l)) with (x +:+ String LF (join nl (y :: l))).
    rewrite split_app_LF by assumption.
    rewrite IH; [reflexivity | discriminate | assumption].
Qed.

Lemma noLF_app a b : noLF (a +:+ b) = noLF a && noLF b.
Proof.
  induction a as [|c a IH]; simpl; [reflexivity|].
  case_decide; [reflexivity | exact IH].
Qed.

Lemma noLF_digits u : noLF (NilEmpty.string_of_uint u) = true.
Proof. induction u; simpl; try reflexivity; exact IHu. Qed.

Lemma noLF_numToString n : noLF (numToString n) = true.
Proof. apply noLF_digits. Qed.

Lemma spanDigits_digits u rest :
  noDigitAhead rest = true ->
  spanDigits (NilEmpty.string_of_uint u +:+ rest) = (NilEmpty.string_of_uint u, rest).
Proof.
  intros Hr. induction u; simpl; try (rewrite IHu; reflexivity).
  destruct rest as [|c r]; simpl; [reflexivity|].
  simpl in Hr. destruct (isDigit c); [discriminate | reflexivity].
Qed.

Lemma to_uint_not_Nil n : Nat.to_uint n <> Decimal.Nil.
Proof.
  intros H. pose proof (Unsigned.to_of (Nat.to_uint n)) as Hu.
  rewrite Unsigned.of_to, H in Hu. discriminate.
Qed.

Lemma numToString_nonempty n : numToString n <> EmptyString.
Proof.
  unfold numToString. pose proof (to_uint_not_Nil n) as H.
  destruct (Nat.to_uint n); simpl; congruence.
Qed.

Lemma parseInt_numToString n : parseInt (numToString n) = n.
Proof.
  unfold parseInt, numToString. rewrite NilEmpty.usu. apply Unsigned.of_to.
Qed.

Lemma orElse_numToString n d : orElse (numToString n) d = numToString n.
Proof.
  pose proof (numToString_nonempty n).
  destruct (numToString n); [congruence | reflexivity].
Qed.

End StringFacts.

(** * Properties of the diff utilities *)

Module DiffFacts.
Import JS Aux DiffParser DiffManager Ops StringFacts.

(** *** The body written by [generateUnifiedDiff] *)

Lemma diffStep_S o n i : diffStep o n (S i) = diffStep (tail o) (tail n) i.
Proof. unfold diffStep. destruct o, n; reflexivity. Qed.

Lemma body_unfold o n :
  body o n =
  match o, n with
  | [], [] => []
  | _, _ => diffStep o n 0 ++ body (tail o) (tail n)
  end.
Proof.
  unfold body.
  assert (Hs : forall k, flat_map (diffStep o n) (seq 1 k)
                         = flat_map (diffStep (tail o) (tail n)) (seq 0 k)).
  { intros k. rewrite <- seq_shift. rewrite flat_map_concat_map, map_map.
    rewrite flat_map_concat_map. f_equal. apply map_ext. intros i.
    apply diffStep_S. }
  destruct o as [|x o], n as [|y n]; simpl length; try reflexivity.
  - rewrite Nat.max_0_l. cbn [seq flat_map]. rewrite Hs.
    simpl. rewrite ?Nat.max_0_l. reflexivity.
  - rewrite Nat.max_0_r. cbn [seq flat_map]. rewrite Hs.
    simpl. rewrite ?Nat.max_0_r. reflexivity.
  - rewrite <- Nat.succ_max_distr. cbn [seq flat_map]. rewrite Hs. reflexivity.
Qed.

Lemma body_nil_nil : body [] [] = [].
Proof. reflexivity. Qed.

Lemma body_cons_nil x o : body (x :: o) [] = ("-" +:+ x) :: body o [].
Proof. rewrite body_unfold. reflexivity. Qed.

Lemma body_nil_cons y n : body [] (y :: n) = ("+" +:+ y) :: body [] n.
Proof. rewrite body_unfold. reflexivity. Qed.

Lemma body_cons_cons x y o n :
  body (x :: o) (y :: n) =
  (if decide (x = y) then [" " +:+ x] else ["-" +:+ x; "+" +:+ y]) ++ body o n.
Proof.
  rewrite body_unfold. unfold diffStep. simpl.
  destruct (decide (x = y)) as [->|Hne].
  - destruct (decide (Some y = Some y)); [reflexivity | congruence].
  - destruct (decide (Some x = Some y)); [congruence | reflexivity].
Qed.

(** Induction along the loop: both arrays advance together, then the
    longer one alone. *)
Lemma lines_ind (P : list string -> list string -> Prop) :
  P [] [] ->
  (forall x o, P o [] -> P (x :: o) []) ->
  (forall y n, P [] n -> P [] (y :: n)) ->
  (forall x y o n, P o n -> P (x :: o) (y :: n)) ->
  forall o n, P o n.
Proof.
  intros H00 H10 H01 H11. induction o as [|x o IH].
  - induction n as [|y n IHn]; [exact H00 | apply H01, IHn].
  - destruct n as [|y n]; [apply H10, IH | apply H11, IH].
Qed.

Ltac body_cases :=
  rewrite ?body_nil_nil, ?body_cons_nil, ?body_nil_cons, ?body_cons_cons.

Lemma opOfLine_equal x : opOfLine (" " +:+ x) = Equal x.
Proof. reflexivity. Qed.
Lemma opOfLine_delete x : opOfLine ("-" +:+ x) = Delete x.
Proof. reflexivity. Qed.
Lemma opOfLine_insert x : opOfLine ("+" +:+ x) = Insert x.
Proof. reflexivity. Qed.

Lemma newSide_body o n : newSide (map opOfLine (body o n)) = n.
Proof.
  revert o n. apply lines_ind; intros; body_cases.
  - reflexivity.
  - exact H.
  - unfold newSide in *. simpl. f_equal. exact H.
  - unfold newSide in *. destruct (decide (x = y)) as [->|]; simpl; f_equal; exact H.
Qed.

Lemma oldSide_body o n : oldSide (map opOfLine (body o n)) = o.
Proof.
  revert o n. apply lines_ind; intros; body_cases.
  - reflexivity.
  - unfold oldSide in *. simpl. f_equal. exact H.
  - exact H.
  - unfold oldSide in *. destruct (decide (x = y)) as [->|]; simpl; f_equal; exact H.
Qed.

Lemma equalLines_body o n :
  equalLines (map opOfLine (body o n)) = positionalMatches o n.
Proof.
  revert o n. apply lines_ind; intros; body_cases.
  - reflexivity.
  - unfold equalLines in *. simpl. rewrite H. destruct o; reflexivity.
  - exact H.
  - unfold equalLines in *. simpl positionalMatches.
    destruct (decide (x = y)) as [->|]; simpl; [f_equal|]; exact H.
Qed.

Lemma count_old_body o n :
  countOps isEqual (map opOfLine (body o n)) +
  countOps isDelete (map opOfLine (body o n)) = length o.
Proof.
  revert o n. unfold countOps. apply lines_ind; intros; body_cases.
  - reflexivity.
  - simpl in *. lia.
  - simpl in *. lia.
  - destruct (decide (x = y)) as [->|]; simpl in *; lia.
Qed.

Lemma count_new_body o n :
  countOps isEqual (map opOfLine (body o n)) +
  countOps isInsert (map opOfLine (body o n)) = length n.
Proof.
  revert o n. unfold countOps. apply lines_ind; intros; body_cases.
  - reflexivity.
  - simpl in *. lia.
  - simpl in *. lia.
  - destruct (decide (x = y)) as [->|]; simpl in *; lia.
Qed.

Lemma body_heads o n :
  Forall (fun l => headIn [" "; "-"; "+"]%char l = true) (body o n).
Proof.
  revert o n. apply lines_ind; intros; body_cases.
  - constructor.
  - constructor; [reflexivity | assumption].
  - constructor; [reflexivity | assumption].
  - destruct (decide (x = y)); simpl; repeat (constructor; [reflexivity|]); assumption.
Qed.

Lemma body_noLF o n :
  Forall (fun l => noLF l = true) o -> Forall (fun l => noLF l = true) n ->
  Forall (fun l => noLF l = true) (body o n).
Proof.
  revert o n.
  apply (lines_ind (fun o n =>
    Forall (fun l => noLF l = true) o -> Forall (fun l => noLF l = true) n ->
    Forall (fun l => noLF l = true) (body o n))).
  - intros; constructor.
  - intros x o IH Ho Hn. body_cases. inversion Ho; subst.
    constructor; [simpl; assumption | auto].
  - intros y n IH Ho Hn. body_cases. inversion Hn; subst.
    constructor; [simpl; assumption | auto].
  - intros x y o n IH Ho Hn. body_cases. inversion Ho; inversion Hn; subst.
    destruct (decide (x = y)); simpl;
      repeat (constructor; [simpl; assumption|]); auto.
Qed.

Lemma positionalMatches_sublist_l o n : sublist (positionalMatches o n) o.
Proof.
  revert n. induction o as [|x o IH]; intros [|y n]; simpl.
  - constructor.
  - constructor.
  - apply sublist_nil_l.
  - destruct (decide (x = y)); [apply sublist_skip | apply sublist_cons]; apply IH.
Qed.

Lemma positionalMatches_sublist_r o n : sublist (positionalMatches o n) n.
Proof.
  revert n. induction o as [|x o IH]; intros [|y n]; simpl.
  - constructor.
  - apply sublist_nil_l.
  - constructor.
  - destruct (decide (x = y)) as [->|]; [apply sublist_skip | apply sublist_cons]; apply IH.
Qed.

(** *** Reading back what [generateUnifiedDiff] wrote *)

Lemma hunkMatch_not_at c r : c <> "@"%char -> hunkMatch (String c r) = None.
Proof.
  intros Hc. unfold hunkMatch. simpl.
  destruct (decide ("@"%char = c)); [congruence | reflexivity].
Qed.

Lemma hunkMatch_head l :
  headIn [" "; "-"; "+"]%char l = true -> hunkMatch l = None.
Proof.
  destruct l as [|c r]; simpl; [discriminate|].
  intros Hc. apply bool_decide_eq_true in Hc. apply hunkMatch_not_at.
  intros ->.
  repeat (apply elem_of_cons in Hc as [Hc|Hc]; [discriminate|]).
  apply elem_of_nil in Hc. exact Hc.
Qed.

Lemma startsWith_head l :
  headIn [" "; "-"; "+"]%char l = true ->
  startsWith "+" l || startsWith "-" l || startsWith " " l = true.
Proof.
  destruct l as [|c r]; simpl; [discriminate|].
  intros Hc. apply bool_decide_eq_true in Hc.
  repeat (apply elem_of_cons in Hc as [->|Hc]; [reflexivity|]).
  apply elem_of_nil in Hc. contradiction.
Qed.

#[local] Arguments String.append !_ _ / : simpl nomatch.

Lemma hunkMatch_rangeLine a b :
  hunkMatch (rangeLine a b) = Some ("1", numToString a, "1", numToString b).
Proof.
  unfold hunkMatch, rangeLine, numToString. simpl.
  rewrite spanDigits_digits by reflexivity. simpl.
  rewrite spanDigits_digits by reflexivity. simpl.
  reflexivity.
Qed.

Lemma extract_skip pre hs :
  Forall (fun l => hunkMatch l = None) pre ->
  fold_left extractStep pre (hs, None) = (hs, None).
Proof.
  induction 1 as [|l pre Hl _ IH]; cbn [fold_left]; [reflexivity|].
  unfold extractStep at 2. rewrite Hl. exact IH.
Qed.

Lemma extractStep_body hs h l :
  headIn [" "; "-"; "+"]%char l = true ->
  extractStep (hs, Some h) l = (hs, Some (pushLine h l)).
Proof.
  intros Hl. unfold extractStep.
  rewrite (hunkMatch_head _ Hl), (startsWith_head _ Hl). reflexivity.
Qed.

Lemma extract_body ls hs h :
  Forall (fun l => headIn [" "; "-"; "+"]%char l = true) ls ->
  fold_left extractStep ls (hs, Some h) =
  (hs, Some {| oldStart := oldStart h; oldLines := oldLines h;
               newStart := newStart h; newLines := newLines h;
               lines := lines h ++ ls |}).
Proof.
  intros Hall. revert h. induction Hall as [|l ls Hl _ IH]; intros h; cbn [fold_left].
  - rewrite app_nil_r. destruct h; reflexivity.
  - rewrite (extractStep_body _ _ _ Hl), IH.
    cbn [pushLine oldStart oldLines newStart newLines lines].
    rewrite <- app_assoc. reflexivity.
Qed.

Lemma generated_lines o n f :
  generateUnifiedDiffLines o n f =
  ["--- a/" +:+ f; "+++ b/" +:+ f;
   rangeLine (length (split LF o)) (length (split LF n))]
  ++ body (split LF o) (split LF n).
Proof.
  unfold generateUnifiedDiffLines.
  pose proof (split_length_pos LF o) as Ho.
  apply Nat.ltb_lt in Ho. rewrite Ho. reflexivity.
Qed.

Lemma generated_noLF o n f :
  noLF f = true ->
  Forall (fun l => noLF l = true) (generateUnifiedDiffLines o n f).
Proof.
  intros Hf. rewrite generated_lines.
  repeat constructor.
  - simpl. exact Hf.
  - simpl. exact Hf.
  - unfold rangeLine. rewrite !noLF_app, !noLF_numToString. reflexivity.
  - apply body_noLF; apply split_parts_noLF.
Qed.

(** The text of the diff splits back into the lines that were joined. *)
Lemma split_generated o n f :
  noLF f = true ->
  split LF (generateUnifiedDiff o n f) = generateUnifiedDiffLines o n f.
Proof.
  intros Hf. unfold generateUnifiedDiff. apply split_join.
  - rewrite generated_lines. discriminate.
  - apply generated_noLF, Hf.
Qed.

(** [extractHunks] finds, in the text of the diff, the one hunk that
    [generateUnifiedDiff] wrote: the whole of both files, from line 1. *)
Lemma extract_generated o n f :
  noLF f = true ->
  extractHunks (split LF (generateUnifiedDiff o n f)) =
  [ {| oldStart := 1; oldLines := length (split LF o);
       newStart := 1; newLines := length (split LF n);
       lines := body (split LF o) (split LF n) |} ].
Proof.
  intros Hf. rewrite split_generated by exact Hf. rewrite generated_lines.
  unfold extractHunks. cbn [app fold_left].
  assert (Hskip : forall c r, c <> "@"%char ->
            extractStep ([], None) (String c r) = ([], None)).
  { intros c r Hc. unfold extractStep. rewrite hunkMatch_not_at by exact Hc. reflexivity. }
  change ("--- a/" +:+ f) with (String "-" ("-- a/" +:+ f)).
  change ("+++ b/" +:+ f) with (String "+" ("++ b/" +:+ f)).
  rewrite !Hskip by discriminate.
  unfold extractStep at 2. rewrite hunkMatch_rangeLine.
  rewrite extract_body by apply body_heads.
  cbn [flush oldStart oldLines newStart newLines lines app].
  rewrite !orElse_numToString, !parseInt_numToString. reflexivity.
Qed.

Lemma compute_eq o n :
  compute o n =
  [ {| oldStart := 1; oldLines := length (split LF o);
       newStart := 1; newLines := length (split LF n);
       lines := body (split LF o) (split LF n) |} ].
Proof. apply extract_generated. reflexivity. Qed.

End DiffFacts.

(** * The diff engine: statements settled on the code *)

Module DiffClaims.
Import JS Aux DiffParser DiffManager Ops StringFacts DiffFacts.

Lemma append_empty_r s : s +:+ EmptyString = s.
Proof.
  induction s as [|c s IH]; [reflexivity|].
  change (String c (s +:+ EmptyString) = String c s). now rewrite IH.
Qed.

Lemma substring_end s : String.substring (String.length s) 0 s = EmptyString.
Proof. induction s as [|c s IH]; [reflexivity | exact IH]. Qed.

(** Replacing the range that spans the whole document leaves the new
    text alone. *)
Lemma replaceRange_full doc text :
  replaceRange doc 0 (String.length doc) text = text.
Proof.
  unfold replaceRange. rewrite Nat.sub_diag, substring_end.
  destruct doc; apply append_empty_r.
Qed.

Lemma applyChanges_present h path live n :
  files h !! path = Some live ->
  applyChanges h path n =
  if appliesEdit h
  then Applied (<[path := n]> (files h)) (cl_added (calculateChangedLines live n))
  else Failed "Failed to apply changes: Failed to apply workspace edit" (files h).
Proof.
  intros Hf. unfold applyChanges. rewrite Hf, replaceRange_full. reflexivity.
Qed.

Lemma applied_files h path n files' highlighted :
  applyChanges h path n = Applied files' highlighted ->
  files' = <[path := n]> (files h) /\ appliesEdit h = true.
Proof.
  unfold applyChanges. intros Happ.
  destruct (files h !! path);
    [|destruct (createsFile h); [|discriminate Happ]];
    (destruct (appliesEdit h); [|discriminate Happ]);
    rewrite replaceRange_full in Happ; injection Happ as <- _;
    rewrite ?insert_insert_eq; split; reflexivity.
Qed.

Lemma allOps_compute o n :
  allOps (compute o n) = map opOfLine (body (split LF o) (split LF n)).
Proof. rewrite compute_eq. unfold allOps, hunkOps. simpl. apply app_nil_r. Qed.

Lemma newSide_length ops : length (newSide ops) <= length ops.
Proof.
  unfold newSide. rewrite length_map. apply filter_length_le.
Qed.

(** The text of the diff has more lines than the new text. *)
Lemma generated_longer o n :
  length (split LF n) < length (split LF (generateUnifiedDiff o n defaultFilePath)).
Proof.
  rewrite split_generated by reflexivity. rewrite generated_lines.
  rewrite length_app. cbn [length].
  pose proof (newSide_length (map opOfLine (body (split LF o) (split LF n)))) as Hle.
  rewrite newSide_body, length_map in Hle. lia.
Qed.

(** C1, as the code has it.  The code has no operation that applies a
    diff: [applyChanges] receives the new text itself and replaces the
    whole document with it, whatever the document holds.  Handed the text
    of the diff computed between [o] and [n], it writes that text, which
    has more lines than [n].  What the diff holds still determines both
    texts: its unchanged and added lines, in order, are the lines of [n],
    and its unchanged and removed lines are those of [o]. *)
Theorem C1_apply_takes_new_text (h : Host) (path live o n : string) :
  files h !! path = Some live ->
  appliesEdit h = true ->
  (exists highlighted,
      applyChanges h path n = Applied (<[path := n]> (files h)) highlighted) /\
  (exists highlighted,
      applyChanges h path (generateUnifiedDiff o n defaultFilePath) =
      Applied (<[path := generateUnifiedDiff o n defaultFilePath]> (files h)) highlighted) /\
  length (split LF n) < length (split LF (generateUnifiedDiff o n defaultFilePath)) /\
  newSide (allOps (compute o n)) = split LF n /\
  oldSide (allOps (compute o n)) = split LF o.
Proof.
  intros Hf Hok. rewrite !(applyChanges_present _ _ _ _ Hf), Hok.
  split; [|split; [|split; [|split]]].
  - eexists. reflexivity.
  - eexists. reflexivity.
  - apply generated_longer.
  - rewrite allOps_compute. apply newSide_body.
  - rewrite allOps_compute. apply oldSide_body.
Qed.

Lemma C1_witness :
  let h := {| files := {[ "doc.ts" := "z" ]}; createsFile := false; appliesEdit := true |} in
  (exists highlighted,
      applyChanges h "doc.ts" "b" = Applied (<["doc.ts" := "b"]> (files h)) highlighted) /\
  (exists highlighted,
      applyChanges h "doc.ts" (generateUnifiedDiff "a" "b" defaultFilePath) =
      Applied (<["doc.ts" := generateUnifiedDiff "a" "b" defaultFilePath]> (files h))
        highlighted) /\
  length (split LF "b") < length (split LF (generateUnifiedDiff "a" "b" defaultFilePath)) /\
  newSide (allOps (compute "a" "b")) = split LF "b" /\
  oldSide (allOps (compute "a" "b")) = split LF "a".
Proof.
  intros h. apply (C1_apply_takes_new_text h "doc.ts" "z" "a" "b").
  - vm_compute. reflexivity.
  - reflexivity.
Defined.

(** The document holds "a" and the diff is computed from "a" to "b".
    [applyChanges] is the only operation that writes a change; given the
    old document and that diff, it leaves the five lines of the diff, not
    the one line of "b". *)
Lemma C1_counterexample :
  let o := "a" in
  let n := "b" in
  let h := {| files := {[ "doc.ts" := o ]}; createsFile := false; appliesEdit := true |} in
  exists files' highlighted text,
    applyChanges h "doc.ts" (generateUnifiedDiff o n defaultFilePath) =
      Applied files' highlighted /\
    files' !! "doc.ts" = Some text /\
    split LF text = ["--- a/file"; "+++ b/file"; "@@ -1,1 +1,1 @@"; "-a"; "+b"] /\
    split LF text <> split LF n.
Proof.
  intros o n h.
  exists (<["doc.ts" := generateUnifiedDiff o n defaultFilePath]> (files h)).
  eexists. exists (generateUnifiedDiff o n defaultFilePath).
  split; [|split; [|split]].
  - rewrite (applyChanges_present h "doc.ts" o) by (vm_compute; reflexivity).
    reflexivity.
  - apply lookup_insert_eq.
  - vm_compute. reflexivity.
  - vm_compute. discriminate.
Qed.

(** *** Alignment *)

Lemma changed_fold o n l acc :
  fold_left (changedStep o n) l acc =
  {| cl_added := cl_added acc ++ List.filter (addedAt o n) l;
     cl_removed := cl_removed acc ++ List.filter (removedAt o n) l |}.
Proof.
  revert acc. induction l as [|i l IH]; intros acc; cbn [fold_left List.filter].
  - rewrite !app_nil_r. destruct acc; reflexivity.
  - rewrite IH. unfold changedStep, addedAt, removedAt.
    destruct (o !! i) as [x|], (n !! i) as [y|];
      repeat case_decide; repeat case_bool_decide;
      cbn [cl_added cl_removed]; rewrite ?app_nil_r, <- ?app_assoc;
      try reflexivity; exfalso; intuition congruence.
Qed.

Lemma calculateChangedLines_added o n i :
  In i (cl_added (calculateChangedLines o n)) <->
  exists m, split LF n !! i = Some m /\ split LF o !! i <> Some m.
Proof.
  unfold calculateChangedLines. rewrite changed_fold. cbn [cl_added app].
  rewrite filter_In, in_seq. unfold addedAt. rewrite bool_decide_eq_true.
  split.
  - intros (_ & Hne & Hs). destruct (split LF n !! i) as [m|]; [|congruence].
    exists m. split; [reflexivity | exact Hne].
  - intros (m & Hm & Hne). rewrite Hm. split; [|split; congruence].
    apply lookup_lt_Some in Hm. lia.
Qed.

(** C2, as the code has it. The unchanged lines of the diff are the lines
    that are the same at the same index in both texts; they are a common
    subsequence of the two (not always a longest one), and
    [calculateChangedLines] reports index [i] as added exactly when the new
    text has a line [i] that differs from line [i] of the old one. *)
Theorem C2_positional_alignment (o n : string) :
  equalLines (allOps (compute o n)) = positionalMatches (split LF o) (split LF n) /\
  sublist (equalLines (allOps (compute o n))) (split LF o) /\
  sublist (equalLines (allOps (compute o n))) (split LF n) /\
  (forall i, In i (cl_added (calculateChangedLines o n)) <->
             exists m, split LF n !! i = Some m /\ split LF o !! i <> Some m).
Proof.
  rewrite allOps_compute, equalLines_body.
  split; [reflexivity|]. split; [apply positionalMatches_sublist_l|].
  split; [apply positionalMatches_sublist_r|].
  apply calculateChangedLines_added.
Qed.

(** One line inserted in front: no line is found unchanged, although
    both lines of the old text are still there. *)
Lemma C2_counterexample :
  let o := "a" +:+ nl +:+ "b" in
  let n := "x" +:+ nl +:+ "a" +:+ nl +:+ "b" in
  equalLines (allOps (compute o n)) = [] /\
  ~ isLCS (equalLines (allOps (compute o n))) (split LF o) (split LF n).
Proof.
  intros o n.
  assert (He : equalLines (allOps (compute o n)) = []) by (vm_compute; reflexivity).
  split; [exact He|]. rewrite He. intros (_ & _ & Hmax).
  specialize (Hmax ["a"; "b"]).
  assert (Hlen : length ["a"; "b"] <= length (@nil string)).
  { apply Hmax; vm_compute.
    - apply sublist_skip, sublist_skip, sublist_nil.
    - apply sublist_cons, sublist_skip, sublist_skip, sublist_nil. }
  simpl in Hlen. lia.
Qed.

(** *** Applying against a document that has changed *)

(** C3, as the code has it. [applyChanges] never compares the document
    with the text the proposal was made from: whatever the document holds,
    when the host accepts the edit the whole document becomes the modified
    text (and the lines to highlight are computed against the live text);
    the only failure is the host refusing the edit, and it leaves the
    workspace as it was. *)
Theorem C3_apply_overwrites (h : Host) (path live n : string) :
  files h !! path = Some live ->
  (appliesEdit h = true ->
     applyChanges h path n =
     Applied (<[path := n]> (files h)) (cl_added (calculateChangedLines live n))) /\
  (appliesEdit h = false ->
     applyChanges h path n =
     Failed "Failed to apply changes: Failed to apply workspace edit" (files h)).
Proof.
  intros Hf. rewrite (applyChanges_present _ _ _ _ Hf).
  split; intros ->; reflexivity.
Qed.

Lemma C3_witness :
  let h := {| files := {[ "doc.ts" := "z" ]}; createsFile := false; appliesEdit := true |} in
  (appliesEdit h = true ->
     applyChanges h "doc.ts" "b" =
     Applied (<["doc.ts" := "b"]> (files h)) (cl_added (calculateChangedLines "z" "b"))) /\
  (appliesEdit h = false ->
     applyChanges h "doc.ts" "b" =
     Failed "Failed to apply changes: Failed to apply workspace edit" (files h)).
Proof.
  intros h. apply (C3_apply_overwrites h "doc.ts" "z" "b").
  vm_compute. reflexivity.
Defined.

(** The diff is computed from "a" to "b"; its one hunk covers line 1 of
    the old text.  The document has drifted to "z" at that very line, and
    the proposal is applied all the same. *)
Lemma C3_counterexample :
  let o := "a" in
  let n := "b" in
  let live := "z" in
  let h := {| files := {[ "doc.ts" := live ]}; createsFile := false; appliesEdit := true |} in
  (exists hk, In hk (compute o n) /\
              oldStart hk <= 1 < oldStart hk + oldLines hk /\
              split LF live !! 0 <> split LF o !! 0) /\
  applyChanges h "doc.ts" n = Applied {[ "doc.ts" := n ]} [0].
Proof.
  intros o n live h. split.
  - eexists. split; [vm_compute; left; reflexivity|].
    cbn [oldStart oldLines]. split; [lia | vm_compute; congruence].
  - rewrite (applyChanges_present h "doc.ts" live n) by (vm_compute; reflexivity).
    cbn [appliesEdit h files]. rewrite insert_singleton_eq. reflexivity.
Qed.

(** *** Parsing *)






(** *** What [parseUnifiedDiff] keeps of a diff *)

Lemma parseLine_insert st x :
  parseLine st ("+" +:+ x) =
  {| psAdded := psAdded st ++
       [ {| lineNumber := newLineNum st; type := added; content := x |} ];
     psRemoved := psRemoved st;
     oldLineNum := oldLineNum st; newLineNum := S (newLineNum st) |}.
Proof. reflexivity. Qed.

Lemma parseLine_delete st x :
  parseLine st ("-" +:+ x) =
  {| psAdded := psAdded st;
     psRemoved := psRemoved st ++
       [ {| lineNumber := oldLineNum st; type := removed; content := x |} ];
     oldLineNum := S (oldLineNum st); newLineNum := newLineNum st |}.
Proof. reflexivity. Qed.

Lemma parseLine_context st x :
  parseLine st (" " +:+ x) =
  {| psAdded := psAdded st; psRemoved := psRemoved st;
     oldLineNum := S (oldLineNum st); newLineNum := S (newLineNum st) |}.
Proof. reflexivity. Qed.

Lemma parse_body o n : forall st,
  fold_left parseLine (body o n) st =
  {| psAdded := psAdded st ++ addedFrom (newLineNum st) o n;
     psRemoved := psRemoved st ++ removedFrom (oldLineNum st) o n;
     oldLineNum := oldLineNum st + length o;
     newLineNum := newLineNum st + length n |}.
Proof.
  revert o n.
  apply (lines_ind (fun o n => forall st,
    fold_left parseLine (body o n) st =
    {| psAdded := psAdded st ++ addedFrom (newLineNum st) o n;
       psRemoved := psRemoved st ++ removedFrom (oldLineNum st) o n;
       oldLineNum := oldLineNum st + length o;
       newLineNum := newLineNum st + length n |})).
  - intros st. cbn. rewrite !app_nil_r, !Nat.add_0_r. destruct st; reflexivity.
  - intros x o IH st. rewrite body_cons_nil. cbn [fold_left].
    rewrite parseLine_delete, IH. cbn.
    rewrite <- app_assoc. f_equal; lia.
  - intros y n IH st. rewrite body_nil_cons. cbn [fold_left].
    rewrite parseLine_insert, IH. cbn.
    rewrite <- app_assoc. f_equal; lia.
  - intros x y o n IH st. rewrite body_cons_cons.
    destruct (decide (x = y)) as [->|Hne]; cbn [app fold_left].
    + rewrite parseLine_context, IH. cbn.
      destruct (decide (Some y = Some y)); [|congruence].
      cbn. f_equal; lia.
    + rewrite parseLine_delete, parseLine_insert, IH. cbn.
      destruct (decide (Some x = Some y)); [congruence|].
      destruct (decide (Some y = Some x)); [congruence|].
      cbn. rewrite <- !app_assoc. f_equal; lia.
Qed.

Lemma parse_generated o n :
  parseUnifiedDiff (generateUnifiedDiff o n defaultFilePath) =
  {| addedLines := addedFrom 1 (split LF o) (split LF n);
     removedLines := removedFrom 1 (split LF o) (split LF n);
     modifiedLines := [];
     stats := {| additions := length (addedFrom 1 (split LF o) (split LF n));
                 deletions := length (removedFrom 1 (split LF o) (split LF n));
                 changes := 0 |} |}.
Proof.
  unfold parseUnifiedDiff.
  rewrite (extract_generated o n defaultFilePath) by reflexivity.
  cbn [fold_left]. unfold parseHunk. cbn [lines oldStart newStart fst snd].
  rewrite parse_body. reflexivity.
Qed.

(** C5, as the code has it. From the text written by
    [generateUnifiedDiff], [extractHunks] reads back the one hunk that was
    written: both ranges and every body line, which is all the text holds
    besides its two header lines.  [parseUnifiedDiff] keeps less: the added
    lines and the removed lines, each with its line number counted from 1,
    and neither the unchanged lines nor the ranges. *)
Theorem C5_hunks_round_trip (o n : string) :
  let hunk := {| oldStart := 1; oldLines := length (split LF o);
                 newStart := 1; newLines := length (split LF n);
                 lines := body (split LF o) (split LF n) |} in
  extractHunks (split LF (generateUnifiedDiff o n defaultFilePath)) = [hunk] /\
  generateUnifiedDiff o n defaultFilePath =
    join nl (["--- a/file"; "+++ b/file";
              rangeLine (oldLines hunk) (newLines hunk)] ++ lines hunk) /\
  addedLines (parseUnifiedDiff (generateUnifiedDiff o n defaultFilePath)) =
    addedFrom 1 (split LF o) (split LF n) /\
  removedLines (parseUnifiedDiff (generateUnifiedDiff o n defaultFilePath)) =
    removedFrom 1 (split LF o) (split LF n) /\
  modifiedLines (parseUnifiedDiff (generateUnifiedDiff o n defaultFilePath)) = [].
Proof.
  intros hunk. split; [|split].
  - apply extract_generated. reflexivity.
  - unfold generateUnifiedDiff. rewrite generated_lines. reflexivity.
  - rewrite parse_generated. repeat split; reflexivity.
Qed.

(** Two diffs that differ are parsed to the same result, so the result of
    [parseUnifiedDiff] cannot be the diff; and it is not what
    [compareLineByLine] computes from the two texts either. *)
Lemma C5_counterexample :
  parseUnifiedDiff (generateUnifiedDiff "a" "a" defaultFilePath) =
    parseUnifiedDiff (generateUnifiedDiff "b" "b" defaultFilePath) /\
  generateUnifiedDiff "a" "a" defaultFilePath <>
    generateUnifiedDiff "b" "b" defaultFilePath /\
  compute "a" "a" <> compute "b" "b" /\
  parseUnifiedDiff (generateUnifiedDiff "a" "b" defaultFilePath) <>
    compareLineByLine "a" "b".
Proof. repeat split; vm_compute; congruence. Qed.

(** *** Identical inputs *)

Lemma body_same l : body l l = map (fun s => " " +:+ s) l.
Proof.
  induction l as [|x l IH]; [reflexivity|].
  rewrite body_cons_cons. destruct (decide (x = x)); [|congruence].
  cbn [app map]. now rewrite IH.
Qed.

Lemma addedFrom_same k l : addedFrom k l l = [].
Proof.
  revert k. induction l as [|x l IH]; intros k; [reflexivity|].
  cbn. destruct (decide (Some x = Some x)); [|congruence]. apply IH.
Qed.

Lemma removedFrom_same k l : removedFrom k l l = [].
Proof.
  revert k. induction l as [|x l IH]; intros k; [reflexivity|].
  cbn. destruct (decide (Some x = Some x)); [|congruence]. apply IH.
Qed.

Lemma context_ops l :
  map opOfLine (map (fun s => " " +:+ s) l) = map Equal l.
Proof. rewrite map_map. apply map_ext. intros s. reflexivity. Qed.

Lemma count_equal_only p l :
  (forall s, p (Equal s) = false) -> countOps p (map Equal l) = 0.
Proof.
  intros Hp. unfold countOps. induction l as [|s l IH]; [reflexivity|].
  cbn [map List.filter]. rewrite Hp. exact IH.
Qed.

(** C6, as the code has it. The diff of a text that is not empty with
    itself has one hunk, which spans the whole text from line 1 and holds
    every line as an unchanged line: no addition and no removal, in the
    hunk or in what [parseUnifiedDiff] reports. *)
Theorem C6_identical_inputs (x : string) :
  x <> EmptyString ->
  compute x x =
    [ {| oldStart := 1; oldLines := length (split LF x);
         newStart := 1; newLines := length (split LF x);
         lines := map (fun s => " " +:+ s) (split LF x) |} ] /\
  allOps (compute x x) = map Equal (split LF x) /\
  countOps isInsert (allOps (compute x x)) = 0 /\
  countOps isDelete (allOps (compute x x)) = 0 /\
  parseUnifiedDiff (generateUnifiedDiff x x defaultFilePath) = noChanges.
Proof.
  intros _.
  assert (Hops : allOps (compute x x) = map Equal (split LF x)).
  { rewrite allOps_compute, body_same. apply context_ops. }
  split; [|split; [|split; [|split]]].
  - rewrite compute_eq, body_same. reflexivity.
  - exact Hops.
  - rewrite Hops. apply count_equal_only. reflexivity.
  - rewrite Hops. apply count_equal_only. reflexivity.
  - rewrite parse_generated, addedFrom_same, removedFrom_same. reflexivity.
Qed.

Lemma C6_witness :
  compute "a" "a" =
    [ {| oldStart := 1; oldLines := length (split LF "a");
         newStart := 1; newLines := length (split LF "a");
         lines := map (fun s => " " +:+ s) (split LF "a") |} ] /\
  allOps (compute "a" "a") = map Equal (split LF "a") /\
  countOps isInsert (allOps (compute "a" "a")) = 0 /\
  countOps isDelete (allOps (compute "a" "a")) = 0 /\
  parseUnifiedDiff (generateUnifiedDiff "a" "a" defaultFilePath) = noChanges.
Proof.
  apply (C6_identical_inputs "a"). discriminate.
Defined.

(** The diff of "a" with itself has a hunk. *)
Lemma C6_counterexample :
  compute "a" "a" =
    [ {| oldStart := 1; oldLines := 1; newStart := 1; newLines := 1;
         lines := [" a"] |} ] /\
  length (compute "a" "a") <> 0.
Proof. repeat split; vm_compute; congruence. Qed.

(** *** Counts *)

(** C7. In every hunk of the diff of two texts, the old count is the
    number of unchanged and removed lines of the hunk, and the new count
    the number of unchanged and added ones. *)
Theorem C7_hunk_counts (o n : string) (h : DiffHunk) :
  In h (compute o n) ->
  oldLines h = countOps isEqual (hunkOps h) + countOps isDelete (hunkOps h) /\
  newLines h = countOps isEqual (hunkOps h) + countOps isInsert (hunkOps h).
Proof.
  rewrite compute_eq. intros [<-|[]]. unfold hunkOps. cbn [oldLines newLines lines].
  rewrite count_old_body, count_new_body. split; reflexivity.
Qed.

Lemma C7_witness :
  let h := {| oldStart := 1; oldLines := 3; newStart := 1; newLines := 3;
              lines := [" a"; "-b"; "+x"; " c"] |} in
  oldLines h = countOps isEqual (hunkOps h) + countOps isDelete (hunkOps h) /\
  newLines h = countOps isEqual (hunkOps h) + countOps isInsert (hunkOps h).
Proof.
  intros h. apply (C7_hunk_counts abc axc h).
  vm_compute. left. reflexivity.
Defined.

(** *** The scenario of one replaced line *)

(** C8, as the code has it. For "a\nb\nc" and "a\nx\nc" the diff has one
    hunk; it starts at line 1 on both sides and counts three lines on
    both; its operations are the unchanged "a", the removal of "b", the
    addition of "x" and the unchanged "c"; and the statistics are one
    addition, one deletion and two unchanged lines. *)
Theorem C8_replaced_line :
  compute abc axc =
    [ {| oldStart := 1; oldLines := 3; newStart := 1; newLines := 3;
         lines := [" a"; "-b"; "+x"; " c"] |} ] /\
  allOps (compute abc axc) = [Equal "a"; Delete "b"; Insert "x"; Equal "c"] /\
  List.filter (fun op => negb (isEqual op)) (allOps (compute abc axc)) =
    [Delete "b"; Insert "x"] /\
  calculateStats abc axc =
    {| st_additions := 1; st_deletions := 1; st_unchanged := 2 |}.
Proof. repeat split; vm_compute; reflexivity. Qed.

(** The hunk does not start at line 2 with one line on each side. *)
Lemma C8_counterexample :
  ~ exists h, compute abc axc = [h] /\
              oldStart h = 2 /\ oldLines h = 1 /\ newStart h = 2 /\ newLines h = 1.
Proof.
  intros (h & Hc & Hs & _). vm_compute in Hc.
  injection Hc as <-. cbn in Hs. discriminate.
Qed.

End DiffClaims.

(** * The step store: statements settled on the code *)

Module StoreFacts.
Import JS StepStore StepHistoryProvider.

Lemma contents_fire st : contents (fire st) = contents st.
Proof. reflexivity. Qed.

Lemma view_fire st : view (fire st) = view st.
Proof. reflexivity. Qed.

(** A firing calls every listener once, and each call sees the store as
    the firing leaves it. *)
Lemma fired_once st0 st :
  listeners st = listeners st0 -> calls st = calls st0 ->
  calls (fire st) =
    calls st0 ++ map (fun l => {| callee := l; seen := view (fire st) |}) (listeners st0) /\
  listeners (fire st) = listeners st0.
Proof. intros Hl Hc. cbn. rewrite Hl, Hc. split; reflexivity. Qed.

Lemma fresh_array_ne st : wf st -> fresh (dom (arrays st)) <> steps st.
Proof.
  intros Hwf Heq. pose proof (is_fresh (dom (arrays st))) as Hfresh.
  rewrite Heq in Hfresh. apply Hfresh. apply elem_of_dom. exact Hwf.
Qed.

Lemma contents_setArray_ne st a l :
  a <> steps st -> contents (setArray st a l) = contents st.
Proof. intros Hne. unfold contents. cbn. now rewrite lookup_insert_ne. Qed.

Lemma view_setArray_ne st a l :
  a <> steps st -> view (setArray st a l) = view st.
Proof.
  intros Hne. unfold view. rewrite contents_setArray_ne by exact Hne. reflexivity.
Qed.

(** Allocating an array leaves the store as it is. *)
Lemma allocArray_frame st l :
  wf st ->
  let st' := snd (allocArray st l) in
  wf st' /\ steps st' = steps st /\ contents st' = contents st /\
  view st' = view st /\ calls st' = calls st /\ listeners st' = listeners st /\
  objects st' = objects st.
Proof.
  intros Hwf. pose proof (fresh_array_ne st Hwf) as Hne. cbn.
  split; [|split; [|split; [|split]]].
  - unfold wf. cbn. rewrite lookup_insert_ne by exact Hne. exact Hwf.
  - reflexivity.
  - apply contents_setArray_ne, Hne.
  - apply view_setArray_ne, Hne.
  - repeat split.
Qed.

Lemma revive_is_Some v : is_Some (revive v) <-> revivable v = true.
Proof.
  unfold revive, revivable, newDate.
  destruct v; cbn; try (split; [reflexivity | eauto]);
    try (split; [intros [? H]; discriminate H | discriminate]).
  destruct (convertible (getProp props "timestamp")); cbn;
    (split; [intros [? H]; try discriminate H; reflexivity | intros H; try discriminate H; eauto]).
Qed.

Lemma reviveAll_is_Some imported :
  is_Some (reviveAll imported) <-> forallb revivable imported = true.
Proof.
  unfold reviveAll. rewrite mapM_is_Some, forallb_forall, Forall_forall.
  split; intros H v Hv.
  - apply revive_is_Some, H, list_elem_of_In, Hv.
  - apply revive_is_Some, H, list_elem_of_In, Hv.
Qed.

Lemma allocObjects_frame os : forall st,
  listeners (snd (allocObjects st os)) = listeners st /\
  calls (snd (allocObjects st os)) = calls st /\
  arrays (snd (allocObjects st os)) = arrays st /\
  steps (snd (allocObjects st os)) = steps st.
Proof.
  induction os as [|o os IH]; intros st; cbn; [repeat split|].
  destruct (allocObjects (setObject st (fresh (dom (objects st))) o) os)
    as [rs st2] eqn:E.
  specialize (IH (setObject st (fresh (dom (objects st))) o)).
  rewrite E in IH. cbn in *. exact IH.
Qed.

Lemma getStepsByStatus_frame status st :
  wf st ->
  let st' := snd (getStepsByStatus status st) in
  wf st' /\ steps st' = steps st /\ contents st' = contents st /\
  view st' = view st /\ calls st' = calls st /\ listeners st' = listeners st /\
  objects st' = objects st.
Proof. intros Hwf. apply allocArray_frame, Hwf. Qed.

Lemma getStatistics_frame st :
  wf st ->
  let st' := snd (getStepsByStatus "pending"
               (snd (getStepsByStatus "rejected"
                  (snd (getStepsByStatus "accepted" st))))) in
  steps st' = steps st /\ contents st' = contents st /\
  view st' = view st /\ calls st' = calls st.
Proof.
  intros Hwf.
  destruct (getStepsByStatus_frame "accepted" st Hwf)
    as (Hwf1 & Hs1 & Hc1 & Hv1 & Hk1 & _).
  destruct (getStepsByStatus_frame "rejected" _ Hwf1)
    as (Hwf2 & Hs2 & Hc2 & Hv2 & Hk2 & _).
  destruct (getStepsByStatus_frame "pending" _ Hwf2)
    as (_ & Hs3 & Hc3 & Hv3 & Hk3 & _).
  cbv zeta in *. repeat split; congruence.
Qed.

(** Every store that the methods can reach holds an array. *)
Lemma wf_create : wf create.
Proof. exists []. reflexivity. Qed.

Lemma wf_setArray st a l : wf st -> wf (setArray st a l).
Proof.
  unfold wf. cbn. intros Hwf. destruct (decide (a = steps st)) as [->|Hne].
  - rewrite lookup_insert_eq. eauto.
  - rewrite lookup_insert_ne by exact Hne. exact Hwf.
Qed.

Lemma wf_fresh_steps st l :
  wf (fire (setSteps (snd (allocArray st l)) (fst (allocArray st l)))).
Proof. unfold wf. cbn. rewrite lookup_insert_eq. eauto. Qed.

Lemma wf_run op st : wf st -> wf (stateOf (run op st)).
Proof.
  intros Hwf. destruct op; cbn [run stateOf]; try exact Hwf.
  - apply (wf_setArray st), Hwf.
  - apply (wf_setArray st), Hwf.
  - apply (wf_setArray st), Hwf.
  - apply (wf_setArray st), Hwf.
  - unfold updateStepStatus. destruct (getStepById id st); exact Hwf.
  - unfold removeStep. destruct (findIndex (hasId st id) (contents st)); [|exact Hwf].
    apply (wf_setArray st), Hwf.
  - apply wf_fresh_steps.
  - repeat apply wf_setArray. exact Hwf.
  - destruct parsed as [[| | | | | |imported|]|]; cbn; try exact Hwf.
    destruct (reviveAll imported) as [os|]; [|exact Hwf].
    destruct (allocObjects st os) as [rs st1]. apply wf_fresh_steps.
Qed.

(** What the changing calls leave in the store. *)
Lemma addStep_contents step st :
  wf st -> contents (addStep step st) = contents st ++ [step].
Proof. intros _. unfold addStep, contents. cbn. now rewrite lookup_insert_eq. Qed.

Lemma removeStep_contents id index st :
  findIndex (hasId st id) (contents st) = Some index ->
  contents (removeStep id st) = splice1 index (contents st).
Proof.
  intros Hi. unfold removeStep. rewrite Hi. unfold contents at 1. cbn.
  now rewrite lookup_insert_eq.
Qed.

Lemma clear_contents st : contents (clear st) = [].
Proof. unfold clear, contents. cbn. now rewrite lookup_insert_eq. Qed.

Lemma updateStepStatus_object id status step st :
  getStepById id st = Some step ->
  deref (updateStepStatus id status st) step =
    setProp (deref st step) "status" (VStr status).
Proof.
  intros Hs. unfold updateStepStatus. rewrite Hs. unfold deref at 1. cbn.
  now rewrite lookup_insert_eq.
Qed.

(** The text [[{"timestamp":{"toString":0}}]] is an array without [null];
    its element's timestamp cannot be converted to a primitive, so that
    [new Date] throws inside the [try]: nothing is assigned and no
    callback is called. *)
Lemma import_unconvertible_timestamp :
  let st := onDidChangeSteps 1 create in
  let imported := [VObj [("timestamp", VObj [("toString", VNum "0")])]] in
  mutates (ImportFromJSON (Some (VArr imported))) st = false /\
  run (ImportFromJSON (Some (VArr imported))) st =
    Thrown "Invalid JSON format for steps import" st.
Proof. split; reflexivity. Qed.

(** The string element "h\195\169" (an h and an e with an acute accent:
    two code units, three bytes) is spread into two properties. *)
Lemma import_spreads_code_units :
  revive (VStr (String "h" (String (ascii_of_N 195) (String (ascii_of_N 169) EmptyString)))) =
  Some [ ("0", VStr "h");
         ("1", VStr (String (ascii_of_N 195) (String (ascii_of_N 169) EmptyString)));
         ("timestamp", VDate VUndefined) ].
Proof. reflexivity. Qed.

(** C9, as the code has it. A call that changes the store ([addStep],
    [updateStepStatus] or [removeStep] on an id that is there, [clear],
    [importFromJSON] of an array whose elements can all be turned into
    steps: none is [null], and no timestamp is an object with a property
    [toString] or an array that holds such an object, itself or in an
    array inside it) returns after having
    called every subscribed callback once, and each callback finds the
    store as the call leaves it.  Any other call (a query, an unknown id,
    an import of something else than such an array, which throws when the
    text is no JSON or when an element cannot be turned into a step) calls
    no callback and leaves the list of steps as it was. *)
Theorem C9_change_callback (op : Op) (st : State) :
  wf st ->
  (mutates op st = true ->
     exists st', run op st = Returned st' /\
       calls st' =
         calls st ++ map (fun l => {| callee := l; seen := view st' |}) (listeners st) /\
       listeners st' = listeners st) /\
  (mutates op st = false ->
     calls (stateOf (run op st)) = calls st /\
     steps (stateOf (run op st)) = steps st /\
     contents (stateOf (run op st)) = contents st /\
     view (stateOf (run op st)) = view st).
Proof.
  intros Hwf. split.
  - intros Hm. destruct op; try discriminate Hm; cbn [run].
    + eexists. split; [reflexivity|]. apply fired_once; reflexivity.
    + cbn in Hm. apply bool_decide_eq_true in Hm. destruct Hm as [r Hr].
      unfold updateStepStatus. rewrite Hr.
      eexists. split; [reflexivity|]. apply fired_once; reflexivity.
    + cbn in Hm. apply bool_decide_eq_true in Hm. destruct Hm as [i Hi].
      unfold removeStep. rewrite Hi.
      eexists. split; [reflexivity|]. apply fired_once; reflexivity.
    + eexists. split; [reflexivity|]. apply fired_once; reflexivity.
    + destruct parsed as [[| | | | | |imported|]|]; try discriminate Hm.
      cbn in Hm. apply reviveAll_is_Some in Hm. destruct Hm as [os Hos].
      unfold importFromJSON. rewrite Hos.
      pose proof (allocObjects_frame os st) as (Hl & Hc & _).
      destruct (allocObjects st os) as [rs st1]. cbn [snd] in Hl, Hc.
      cbn [allocArray]. eexists. split; [reflexivity|].
      apply fired_once; cbn; assumption.
  - intros Hm. destruct op; try discriminate Hm; cbn [run stateOf].
    + destruct (allocArray_frame st (contents st) Hwf) as (_ & ? & ? & ? & ? & _).
      repeat split; assumption.
    + repeat split.
    + destruct (allocArray_frame st
        (List.filter (fun r => isString (getProp (deref st r) "filePath") filePath)
           (contents st)) Hwf) as (_ & ? & ? & ? & ? & _).
      repeat split; assumption.
    + destruct (getStepsByStatus_frame status st Hwf) as (_ & ? & ? & ? & ? & _).
      repeat split; assumption.
    + cbn in Hm. apply bool_decide_eq_false in Hm.
      unfold updateStepStatus. destruct (getStepById id st) eqn:E.
      * exfalso. apply Hm. eauto.
      * repeat split.
    + cbn in Hm. apply bool_decide_eq_false in Hm.
      unfold removeStep. destruct (findIndex (hasId st id) (contents st)) eqn:E.
      * exfalso. apply Hm. eauto.
      * repeat split.
    + repeat split.
    + destruct (getStatistics_frame st Hwf) as (? & ? & ? & ?).
      repeat split; assumption.
    + repeat split.
    + destruct parsed as [[| | | | | |imported|]|]; cbn; try (repeat split; fail).
      cbn in Hm. destruct (reviveAll imported) as [os|] eqn:E.
      * assert (Hs : is_Some (reviveAll imported)) by eauto.
        apply reviveAll_is_Some in Hs. congruence.
      * repeat split.
Qed.

Lemma C9_witness :
  let st := onDidChangeSteps 1 create in
  (mutates (AddStep 0) st = true ->
     exists st', run (AddStep 0) st = Returned st' /\
       calls st' =
         calls st ++ map (fun l => {| callee := l; seen := view st' |}) (listeners st) /\
       listeners st' = listeners st) /\
  (mutates (AddStep 0) st = false ->
     calls (stateOf (run (AddStep 0) st)) = calls st /\
     steps (stateOf (run (AddStep 0) st)) = steps st /\
     contents (stateOf (run (AddStep 0) st)) = contents st /\
     view (stateOf (run (AddStep 0) st)) = view st).
Proof.
  intros st. apply (C9_change_callback (AddStep 0) st).
  exists []. reflexivity.
Defined.

(** The text [[null]] is JSON and an array; importing it throws, calls
    no callback and changes nothing. *)
Lemma C9_counterexample :
  let st := onDidChangeSteps 1 create in
  run (ImportFromJSON (Some (VArr [VNull]))) st =
    Thrown "Invalid JSON format for steps import" st /\
  calls (stateOf (run (ImportFromJSON (Some (VArr [VNull]))) st)) = [].
Proof. split; reflexivity. Qed.

(** *** The copy returned by [getAllSteps] *)

Lemma getAllSteps_copy st :
  arrays (snd (getAllSteps st)) !! fst (getAllSteps st) = Some (contents st).
Proof. cbn. apply lookup_insert_eq. Qed.

Lemma mutateArray_copy st f :
  mutateArray (fst (getAllSteps st)) f (snd (getAllSteps st)) =
  setArray (snd (getAllSteps st)) (fst (getAllSteps st)) (f (contents st)).
Proof. unfold mutateArray. now rewrite getAllSteps_copy. Qed.

Lemma setArray_twice st a l l' :
  contents (setArray (setArray st a l) a l') = contents (setArray st a l') /\
  view (setArray (setArray st a l) a l') = view (setArray st a l').
Proof.
  unfold view, contents. cbn. rewrite insert_insert_eq. split; reflexivity.
Qed.

(** C10. [getAllSteps] returns a new array that holds the steps of the
    store in their order, and leaves the store as it is: same array, same
    steps, no callback called.  Whatever is then done to the returned array
    in place, the steps of the store and their order stay the same; so it
    is with the reversal made by [getChildren], whose result lists the
    steps newest first. *)
Theorem C10_getAllSteps_fresh_copy (st : State) (f : list loc -> list loc) :
  wf st ->
  let r := fst (getAllSteps st) in
  let st1 := snd (getAllSteps st) in
  ((r ∉ dom (arrays st)) /\ r <> steps st /\
   arrays st1 !! r = Some (contents st)) /\
  (steps st1 = steps st /\ contents st1 = contents st /\
   view st1 = view st /\ calls st1 = calls st) /\
  (contents (mutateArray r f st1) = contents st /\
   view (mutateArray r f st1) = view st) /\
  (arrays (snd (getChildren None st)) !! fst (getChildren None st)
     = Some (rev (contents st)) /\
   steps (snd (getChildren None st)) = steps st /\
   contents (snd (getChildren None st)) = contents st /\
   view (snd (getChildren None st)) = view st).
Proof.
  intros Hwf r st1. pose proof (fresh_array_ne st Hwf) as Hne.
  assert (Hmut : forall g, contents (mutateArray r g st1) = contents st /\
                           view (mutateArray r g st1) = view st).
  { intros g. subst r st1. rewrite mutateArray_copy. cbn [getAllSteps allocArray fst snd].
    destruct (setArray_twice st (fresh (dom (arrays st))) (contents st) (g (contents st)))
      as [-> ->].
    split; [apply contents_setArray_ne | apply view_setArray_ne]; exact Hne. }
  split; [|split; [|split]].
  - split; [apply is_fresh|]. split; [exact Hne | apply getAllSteps_copy].
  - destruct (allocArray_frame st (contents st) Hwf) as (_ & ? & ? & ? & ? & _).
    repeat split; assumption.
  - apply Hmut.
  - unfold getChildren. cbn [getAllSteps allocArray fst snd].
    change (fresh (dom (arrays st))) with r.
    change (setArray st r (contents st)) with st1.
    destruct (Hmut (@rev loc)) as [Hc Hv].
    split; [|split; [|split]]; try assumption.
    + subst r st1. rewrite mutateArray_copy. cbn. apply lookup_insert_eq.
    + subst r st1. rewrite mutateArray_copy. reflexivity.
Qed.

Lemma C10_witness :
  let st := addStep 1 (addStep 0 create) in
  let f := fun _ : list loc => @nil loc in
  let r := fst (getAllSteps st) in
  let st1 := snd (getAllSteps st) in
  ((r ∉ dom (arrays st)) /\ r <> steps st /\
   arrays st1 !! r = Some (contents st)) /\
  (steps st1 = steps st /\ contents st1 = contents st /\
   view st1 = view st /\ calls st1 = calls st) /\
  (contents (mutateArray r f st1) = contents st /\
   view (mutateArray r f st1) = view st) /\
  (arrays (snd (getChildren None st)) !! fst (getChildren None st)
     = Some (rev (contents st)) /\
   steps (snd (getChildren None st)) = steps st /\
   contents (snd (getChildren None st)) = contents st /\
   view (snd (getChildren None st)) = view st).
Proof.
  intros st f. apply (C10_getAllSteps_fresh_copy st f).
  exists [0; 1]. vm_compute. reflexivity.
Defined.

End StoreFacts.


(** * Further properties of the diff utilities *)

Module DiffMore.
Import JS JSMore Aux AuxMore DiffParser DiffManager Ops DiffFormat.
Import StringFacts DiffFacts DiffClaims.

(** *** [split] and [join] *)

Lemma join_cons x y l : join nl (x :: y :: l) = x +:+ String LF (join nl (y :: l)).
Proof. reflexivity. Qed.

(** Joining the lines of a text gives the text back. *)
Lemma join_split s : join nl (split LF s) = s.
Proof.
  induction s as [|c r IH]; [reflexivity|].
  cbn [split]. destruct (decide (c = LF)) as [->|Hc].
  - destruct (split LF r) as [|h t] eqn:E; [now apply split_nonempty in E|].
    rewrite join_cons, IH. reflexivity.
  - destruct (split LF r) as [|h t] eqn:E; [now apply split_nonempty in E|].
    destruct t as [|h' t].
    + cbn in *. now rewrite IH.
    + rewrite join_cons in *. change (String c h +:+ ?x) with (String c (h +:+ x)).
      now rewrite IH.
Qed.

Lemma split_inj a b : split LF a = split LF b -> a = b.
Proof. intros H. rewrite <- (join_split a), <- (join_split b), H. reflexivity. Qed.

(** *** [calculateStats] counts the lines that [generateUnifiedDiff] writes *)

Lemma countOps_app p a b : countOps p (a ++ b) = countOps p a + countOps p b.
Proof. unfold countOps. now rewrite List.filter_app, length_app. Qed.

Lemma statsStep_diffStep o n acc i :
  statsStep o n acc i =
  {| st_additions := st_additions acc + countOps isInsert (map opOfLine (diffStep o n i));
     st_deletions := st_deletions acc + countOps isDelete (map opOfLine (diffStep o n i));
     st_unchanged := st_unchanged acc + countOps isEqual (map opOfLine (diffStep o n i)) |}.
Proof.
  unfold statsStep, diffStep.
  destruct (o !! i) as [x|], (n !! i) as [y|]; repeat case_decide; try congruence;
    cbn [map app template];
    rewrite ?opOfLine_equal, ?opOfLine_delete, ?opOfLine_insert;
    cbn; f_equal; lia.
Qed.

Lemma stats_fold o n l : forall acc,
  fold_left (statsStep o n) l acc =
  {| st_additions :=
       st_additions acc + countOps isInsert (map opOfLine (flat_map (diffStep o n) l));
     st_deletions :=
       st_deletions acc + countOps isDelete (map opOfLine (flat_map (diffStep o n) l));
     st_unchanged :=
       st_unchanged acc + countOps isEqual (map opOfLine (flat_map (diffStep o n) l)) |}.
Proof.
  induction l as [|i l IH]; intros acc; cbn [fold_left flat_map].
  - cbn. rewrite !Nat.add_0_r. destruct acc; reflexivity.
  - rewrite IH, statsStep_diffStep. cbn [st_additions st_deletions st_unchanged].
    rewrite map_app, !countOps_app. f_equal; lia.
Qed.

Lemma calculateStats_ops o n :
  calculateStats o n =
  {| st_additions := countOps isInsert (allOps (compute o n));
     st_deletions := countOps isDelete (allOps (compute o n));
     st_unchanged := countOps isEqual (allOps (compute o n)) |}.
Proof.
  rewrite allOps_compute. unfold calculateStats. rewrite stats_fold. reflexivity.
Qed.

(** X2. The statistics of two texts are the numbers of lines that the
    diff of the two texts marks as added, as removed and as unchanged. *)
Theorem calculateStats_counts_diff_lines (o n : string) :
  st_additions (calculateStats o n) = countOps isInsert (allOps (compute o n)) /\
  st_deletions (calculateStats o n) = countOps isDelete (allOps (compute o n)) /\
  st_unchanged (calculateStats o n) = countOps isEqual (allOps (compute o n)).
Proof. rewrite calculateStats_ops. repeat split. Qed.

(** X3. Unchanged lines and additions make up the lines of the modified
    text, unchanged lines and deletions those of the original one. *)
Theorem calculateStats_accounts_for_every_line (o n : string) :
  st_unchanged (calculateStats o n) + st_additions (calculateStats o n)
    = length (split LF n) /\
  st_unchanged (calculateStats o n) + st_deletions (calculateStats o n)
    = length (split LF o).
Proof.
  rewrite calculateStats_ops. cbn [st_additions st_deletions st_unchanged].
  rewrite allOps_compute. split; [apply count_new_body | apply count_old_body].
Qed.

(** *** [formatStats] *)

Lemma formatStats_no_changes stats :
  formatStats stats = "No changes" <->
  st_additions stats = 0 /\ st_deletions stats = 0.
Proof.
  unfold formatStats.
  destruct (st_additions stats) as [|a], (st_deletions stats) as [|d];
    cbn [Nat.ltb Nat.leb app length].
  - split; [intros _; split; reflexivity | reflexivity].
  - split; [intros H | intros [_ H]; discriminate H].
    cbv [join String.concat String.append] in H. discriminate H.
  - split; [intros H | intros [H _]; discriminate H].
    cbv [join String.concat String.append] in H. discriminate H.
  - split; [intros H | intros [H _]; discriminate H].
    cbv [join String.concat String.append] in H. discriminate H.
Qed.

Lemma no_change_ops ops :
  countOps isInsert ops = 0 -> countOps isDelete ops = 0 ->
  oldSide ops = newSide ops.
Proof.
  unfold countOps, oldSide, newSide. induction ops as [|op ops IH]; [reflexivity|].
  destruct op; cbn; intros Hi Hd; try discriminate; f_equal; apply IH; assumption.
Qed.

(** X1. The summary of the statistics of two texts reads "No changes"
    exactly when the two texts are the same. *)
Theorem formatStats_no_changes_iff_same_text (o n : string) :
  formatStats (calculateStats o n) = "No changes" <-> o = n.
Proof.
  rewrite formatStats_no_changes, calculateStats_ops.
  cbn [st_additions st_deletions]. split.
  - intros [Hi Hd]. apply split_inj.
    rewrite <- (oldSide_body (split LF o) (split LF n)).
    rewrite <- (newSide_body (split LF o) (split LF n)) at 2.
    rewrite allOps_compute in Hi, Hd. apply no_change_ops; assumption.
  - intros ->. rewrite allOps_compute, body_same, context_ops.
    split; apply count_equal_only; reflexivity.
Qed.

(** *** [compareLineByLine] *)

Lemma count_range a b m :
  length (List.filter (fun i => bool_decide (a <= i /\ i < b)) (seq 0 m)) = Nat.min b m - a.
Proof.
  induction m as [|m IH]; [cbn; lia|].
  rewrite seq_S, List.filter_app, length_app, IH. cbn.
  case_bool_decide; cbn; lia.
Qed.

Lemma compare_fold_lengths o n l : forall acc,
  length (csAdded (fold_left (compareStep o n) l acc)) =
    length (csAdded acc) +
    length (List.filter (fun i => bool_decide (length o <= i /\ i < length n)) l) /\
  length (csRemoved (fold_left (compareStep o n) l acc)) =
    length (csRemoved acc) +
    length (List.filter (fun i => bool_decide (length n <= i /\ i < length o)) l).
Proof.
  induction l as [|i l IH]; intros acc; cbn [fold_left List.filter].
  - cbn. lia.
  - destruct (IH (compareStep o n acc i)) as [-> ->]. unfold compareStep.
    destruct (o !! i) as [x|] eqn:Ho, (n !! i) as [y|] eqn:Hn.
    + apply lookup_lt_Some in Ho, Hn.
      rewrite !bool_decide_eq_false_2 by lia. case_decide; cbn; lia.
    + apply lookup_lt_Some in Ho. apply lookup_ge_None in Hn.
      rewrite bool_decide_eq_false_2, bool_decide_eq_true_2 by lia.
      cbn. rewrite length_app. cbn. lia.
    + apply lookup_ge_None in Ho. apply lookup_lt_Some in Hn.
      rewrite bool_decide_eq_true_2, bool_decide_eq_false_2 by lia.
      cbn. rewrite length_app. cbn. lia.
    + apply lookup_ge_None in Ho, Hn.
      rewrite !bool_decide_eq_false_2 by lia. cbn. lia.
Qed.

(** X4. [compareLineByLine] reports as added the lines by which the
    modified text is longer than the original, and as removed those by
    which the original is longer: never both. *)
Theorem compareLineByLine_added_removed (o n : string) :
  additions (stats (compareLineByLine o n)) = length (split LF n) - length (split LF o) /\
  deletions (stats (compareLineByLine o n)) = length (split LF o) - length (split LF n) /\
  (addedLines (compareLineByLine o n) = [] \/ removedLines (compareLineByLine o n) = []).
Proof.
  unfold compareLineByLine. cbn [stats additions deletions addedLines removedLines].
  destruct (compare_fold_lengths (split LF o) (split LF n)
              (seq 0 (Nat.max (length (split LF o)) (length (split LF n))))
              {| csAdded := []; csRemoved := []; csModified := [] |}) as [Ha Hr].
  rewrite count_range in Ha, Hr. cbn in Ha, Hr.
  split; [lia|]. split; [lia|].
  destruct (Nat.le_ge_cases (length (split LF n)) (length (split LF o))).
  - left. apply length_zero_iff_nil. lia.
  - right. apply length_zero_iff_nil. lia.
Qed.

Lemma compare_fold_indices o n l : forall acc,
  Forall (atIndexOf n) (csAdded acc) -> Forall (atIndexOf o) (csRemoved acc) ->
  Forall (atIndexOf n) (csModified acc) ->
  Forall (atIndexOf n) (csAdded (fold_left (compareStep o n) l acc)) /\
  Forall (atIndexOf o) (csRemoved (fold_left (compareStep o n) l acc)) /\
  Forall (atIndexOf n) (csModified (fold_left (compareStep o n) l acc)).
Proof.
  induction l as [|i l IH]; intros acc Ha Hr Hm; cbn [fold_left]; [auto|].
  apply IH; unfold compareStep;
    destruct (o !! i) as [x|] eqn:Ho, (n !! i) as [y|] eqn:Hn;
    try case_decide; cbn; auto;
    apply Forall_app; split; auto; repeat constructor; assumption.
Qed.

(** X5. The line numbers of [compareLineByLine] count from 0: an added
    or modified line is the line of the modified text at that index, a
    removed line the line of the original text at that index. *)
Theorem compareLineByLine_zero_based (o n : string) :
  Forall (atIndexOf (split LF n)) (addedLines (compareLineByLine o n)) /\
  Forall (atIndexOf (split LF o)) (removedLines (compareLineByLine o n)) /\
  Forall (atIndexOf (split LF n)) (modifiedLines (compareLineByLine o n)).
Proof.
  unfold compareLineByLine. cbn [addedLines removedLines modifiedLines].
  apply compare_fold_indices; constructor.
Qed.

Lemma stats_compare_fold o n l : forall s c,
  st_additions s = length (csAdded c) + length (csModified c) ->
  st_deletions s = length (csRemoved c) + length (csModified c) ->
  st_additions (fold_left (statsStep o n) l s) =
    length (csAdded (fold_left (compareStep o n) l c)) +
    length (csModified (fold_left (compareStep o n) l c)) /\
  st_deletions (fold_left (statsStep o n) l s) =
    length (csRemoved (fold_left (compareStep o n) l c)) +
    length (csModified (fold_left (compareStep o n) l c)).
Proof.
  induction l as [|i l IH]; intros s c Ha Hd; cbn [fold_left]; [auto|].
  apply IH; unfold statsStep, compareStep;
    destruct (o !! i) as [x|], (n !! i) as [y|];
    repeat case_decide; try congruence; cbn; rewrite ?length_app; cbn; lia.
Qed.

(** X6. A line that [compareLineByLine] calls modified counts as one
    addition and one deletion for [calculateStats]: the additions of the
    latter are the added and the modified lines of the former, its
    deletions the removed and the modified ones. *)
Theorem calculateStats_vs_compareLineByLine (o n : string) :
  st_additions (calculateStats o n) =
    additions (stats (compareLineByLine o n)) + changes (stats (compareLineByLine o n)) /\
  st_deletions (calculateStats o n) =
    deletions (stats (compareLineByLine o n)) + changes (stats (compareLineByLine o n)).
Proof.
  unfold calculateStats, compareLineByLine. cbn [stats additions deletions changes].
  apply stats_compare_fold; reflexivity.
Qed.

(** *** [extractHunks] on any lines *)

Lemma length_flush hs cur :
  length (flush hs cur) = length hs + (match cur with Some _ => 1 | None => 0 end).
Proof. destruct cur; cbn; rewrite ?length_app; cbn; lia. Qed.

Lemma extract_fold_count ls : forall st,
  length (flush (fst (fold_left extractStep ls st)) (snd (fold_left extractStep ls st))) =
  length (flush (fst st) (snd st)) +
  length (List.filter (fun l => bool_decide (is_Some (hunkMatch l))) ls).
Proof.
  induction ls as [|l ls IH]; intros st; cbn [fold_left List.filter]; [cbn [length]; lia|].
  rewrite IH. destruct st as [hs cur]. unfold extractStep.
  destruct (hunkMatch l) as [[[[g1 g2] g3] g4]|] eqn:Hm.
  - rewrite bool_decide_eq_true_2 by eauto.
    cbn [fst snd length]. rewrite !length_flush. lia.
  - rewrite bool_decide_eq_false_2 by (intros [? ?]; discriminate).
    destruct cur as [h|]; [|cbn; lia].
    destruct (startsWith "+" l || startsWith "-" l || startsWith " " l); cbn;
      rewrite ?length_app; cbn; lia.
Qed.

(** X7. [extractHunks] returns one hunk for each line that matches the
    pattern of range lines, whatever stands between them. *)
Theorem extractHunks_one_hunk_per_range_line (ls : list string) :
  length (extractHunks ls) =
  length (List.filter (fun l => bool_decide (is_Some (hunkMatch l))) ls).
Proof.
  unfold extractHunks.
  pose proof (extract_fold_count ls ([], None)) as H.
  destruct (fold_left extractStep ls ([], None)) as [hs cur]. exact H.
Qed.

Lemma extract_fold_lines (L ls : list string) : forall st,
  (forall l, In l ls -> In l L) ->
  Forall (fun h => Forall (fun l => In l L /\ isBodyLine l = true /\ hunkMatch l = None)
                     (lines h)) (flush (fst st) (snd st)) ->
  Forall (fun h => Forall (fun l => In l L /\ isBodyLine l = true /\ hunkMatch l = None)
                     (lines h))
    (flush (fst (fold_left extractStep ls st)) (snd (fold_left extractStep ls st))).
Proof.
  induction ls as [|l ls IH]; intros st Hin Hst; cbn [fold_left]; [exact Hst|].
  apply IH; [intros l' Hl'; apply Hin; now right|].
  destruct st as [hs cur]. unfold extractStep.
  destruct (hunkMatch l) as [[[[g1 g2] g3] g4]|] eqn:Hm.
  - cbn [fst snd flush]. apply Forall_app. split; [exact Hst|].
    repeat constructor.
  - destruct cur as [h|]; [|exact Hst].
    destruct (startsWith "+" l || startsWith "-" l || startsWith " " l) eqn:Hp;
      [|exact Hst].
    cbn [fst snd flush] in *. apply Forall_app in Hst as [Hhs Hh].
    apply Forall_app. split; [exact Hhs|]. constructor; [|constructor].
    cbn [pushLine lines]. apply Forall_app. split.
    + now inversion Hh.
    + constructor; [|constructor]. split; [apply Hin; now left|]. split; assumption.
Qed.

(** X8. Every line that [extractHunks] puts in a hunk is a line of its
    input that starts with '+', '-' or a space and is not a range line. *)
Theorem extractHunks_keeps_prefixed_lines (ls : list string) (h : DiffHunk) (l : string) :
  In h (extractHunks ls) -> In l (lines h) ->
  In l ls /\ isBodyLine l = true /\ hunkMatch l = None.
Proof.
  intros Hh Hl. unfold extractHunks in Hh.
  pose proof (extract_fold_lines ls ls ([], None) (fun _ H => H)) as H.
  destruct (fold_left extractStep ls ([], None)) as [hs cur]. cbn [fst snd] in H.
  assert (Hall : Forall (fun h => Forall (fun l =>
            In l ls /\ isBodyLine l = true /\ hunkMatch l = None) (lines h))
            (flush hs cur)) by (apply H; constructor).
  rewrite Forall_forall in Hall. apply list_elem_of_In, Hall in Hh.
  rewrite Forall_forall in Hh. apply Hh, list_elem_of_In, Hl.
Qed.

Lemma extractHunks_witness :
  In " a" ["--- a/f"; "@@ -1 +1 @@"; " a"; "junk"] /\
  isBodyLine " a" = true /\ hunkMatch " a" = None.
Proof.
  apply (extractHunks_keeps_prefixed_lines
           ["--- a/f"; "@@ -1 +1 @@"; " a"; "junk"]
           {| oldStart := 1; oldLines := 1; newStart := 1; newLines := 1;
              lines := [" a"] |} " a").
  - vm_compute. left. reflexivity.
  - left. reflexivity.
Defined.

(** *** Range lines *)

#[local] Arguments String.append !_ _ / : simpl nomatch.

Lemma hunkMatch_rangeText a b c d rest :
  hunkMatch (rangeText a b c d rest) =
  Some (numToString a, numToString b, numToString c, numToString d).
Proof.
  unfold hunkMatch, rangeText, numToString. simpl.
  rewrite spanDigits_digits by reflexivity. simpl.
  pose proof (numToString_nonempty a) as Ha. unfold numToString in Ha.
  destruct (decide (NilEmpty.string_of_uint (Nat.to_uint a) = "")); [congruence|].
  rewrite spanDigits_digits by reflexivity. simpl.
  rewrite spanDigits_digits by reflexivity. simpl.
  pose proof (numToString_nonempty c) as Hc. unfold numToString in Hc.
  destruct (decide (NilEmpty.string_of_uint (Nat.to_uint c) = "")); [congruence|].
  rewrite spanDigits_digits by reflexivity. simpl.
  reflexivity.
Qed.

Lemma hunkMatch_shortRangeText a c rest :
  hunkMatch (shortRangeText a c rest) =
  Some (numToString a, EmptyString, numToString c, EmptyString).
Proof.
  unfold hunkMatch, shortRangeText, numToString. simpl.
  rewrite spanDigits_digits by reflexivity. simpl.
  pose proof (numToString_nonempty a) as Ha. unfold numToString in Ha.
  destruct (decide (NilEmpty.string_of_uint (Nat.to_uint a) = "")); [congruence|].
  simpl.
  rewrite spanDigits_digits by reflexivity. simpl.
  pose proof (numToString_nonempty c) as Hc. unfold numToString in Hc.
  destruct (decide (NilEmpty.string_of_uint (Nat.to_uint c) = "")); [congruence|].
  reflexivity.
Qed.

(** X9. A range line gives a hunk its four numbers as they are written,
    whatever text follows the closing "@@", when each number is below
    2^53 (so that [parseInt] reads it exactly); a count that is left out
    is 1. *)
Theorem extractHunks_reads_range_line (a b c d : nat) (rest : string) :
  (N.of_nat a < 2 ^ 53)%N -> (N.of_nat b < 2 ^ 53)%N ->
  (N.of_nat c < 2 ^ 53)%N -> (N.of_nat d < 2 ^ 53)%N ->
  extractHunks [rangeText a b c d rest] =
    [ {| oldStart := a; oldLines := b; newStart := c; newLines := d; lines := [] |} ] /\
  extractHunks [shortRangeText a c rest] =
    [ {| oldStart := a; oldLines := 1; newStart := c; newLines := 1; lines := [] |} ].
Proof.
  intros _ _ _ _.
  unfold extractHunks. cbn [fold_left]. unfold extractStep.
  rewrite hunkMatch_rangeText, hunkMatch_shortRangeText.
  cbn [flush app orElse]. rewrite !orElse_numToString, !parseInt_numToString.
  split; reflexivity.
Qed.

Lemma extractHunks_range_witness :
  extractHunks [rangeText 12 3 14 5 " fn"] =
    [ {| oldStart := 12; oldLines := 3; newStart := 14; newLines := 5; lines := [] |} ] /\
  extractHunks [shortRangeText 12 14 " fn"] =
    [ {| oldStart := 12; oldLines := 1; newStart := 14; newLines := 1; lines := [] |} ].
Proof.
  apply (extractHunks_reads_range_line 12 3 14 5 " fn"); reflexivity.
Defined.

(** *** The diffs of two files, one after the other *)

Lemma split_app_nl a b : split LF (a +:+ String LF b) = split LF a ++ split LF b.
Proof.
  induction a as [|c a IH].
  - cbn. destruct (decide (LF = LF)); [reflexivity | congruence].
  - change (String c a +:+ String LF b) with (String c (a +:+ String LF b)).
    cbn [split]. rewrite IH. destruct (decide (c = LF)); [reflexivity|].
    destruct (split LF a) as [|h t] eqn:E; [now apply split_nonempty in E|].
    reflexivity.
Qed.

Lemma fold_generated o n hs cur :
  fold_left extractStep (generateUnifiedDiffLines o n defaultFilePath)
    (hs, cur) =
  (flush
     (match cur with
      | Some h => hs ++ [pushLine (pushLine h "--- a/file") "+++ b/file"] | None => hs
      end) None,
   Some {| oldStart := 1; oldLines := length (split LF o);
           newStart := 1; newLines := length (split LF n);
           lines := body (split LF o) (split LF n) |}).
Proof.
  rewrite generated_lines. cbn [app fold_left].
  assert (Hstep : fold_left extractStep ["--- a/file"; "+++ b/file"] (hs, cur) =
            (hs, match cur with
                 | Some h => Some (pushLine (pushLine h "--- a/file") "+++ b/file")
                 | None => None
                 end)).
  { destruct cur; reflexivity. }
  cbn [fold_left] in Hstep. change ("--- a/" +:+ defaultFilePath) with "--- a/file".
  change ("+++ b/" +:+ defaultFilePath) with "+++ b/file". rewrite Hstep.
  unfold extractStep at 2. rewrite hunkMatch_rangeLine.
  rewrite extract_body by apply body_heads.
  cbn [oldStart oldLines newStart newLines lines app].
  rewrite !orElse_numToString, !parseInt_numToString.
  destruct cur; reflexivity.
Qed.

(** X10. When the diffs of two files are put one after the other, the
    two header lines of the second one are read as a removed and an added
    line of the hunk of the first. *)
Theorem parseUnifiedDiff_counts_later_headers (o1 n1 o2 n2 : string) :
  let text := generateUnifiedDiff o1 n1 defaultFilePath +:+ nl +:+
              generateUnifiedDiff o2 n2 defaultFilePath in
  addedLines (parseUnifiedDiff text) =
    addedFrom 1 (split LF o1) (split LF n1) ++
    [ {| lineNumber := 1 + length (split LF n1); type := added; content := "++ b/file" |} ] ++
    addedFrom 1 (split LF o2) (split LF n2) /\
  removedLines (parseUnifiedDiff text) =
    removedFrom 1 (split LF o1) (split LF n1) ++
    [ {| lineNumber := 1 + length (split LF o1); type := removed; content := "-- a/file" |} ] ++
    removedFrom 1 (split LF o2) (split LF n2).
Proof.
  intros text. unfold parseUnifiedDiff. subst text.
  change (nl +:+ ?x) with (String LF x).
  rewrite split_app_nl, !split_generated by reflexivity.
  unfold extractHunks. rewrite fold_left_app, !fold_generated.
  cbn [flush app fold_left]. unfold parseHunk.
  cbn [lines oldStart newStart pushLine fst snd].
  rewrite !fold_left_app. cbn [fold_left].
  rewrite parse_body.
  change "--- a/file" with ("-" +:+ "-- a/file").
  change "+++ b/file" with ("+" +:+ "++ b/file").
  rewrite parseLine_delete, parseLine_insert.
  cbn [psAdded psRemoved oldLineNum newLineNum].
  rewrite parse_body. cbn [psAdded psRemoved addedLines removedLines app].
  rewrite <- !app_assoc. split; reflexivity.
Qed.

(** *** [calculateChangedLines] *)

Lemma filter_range a b m :
  List.filter (fun i => bool_decide (a <= i /\ i < b)) (seq 0 m) =
  seq a (Nat.min b m - a).
Proof.
  induction m as [|m IH].
  - replace (Nat.min b 0 - a) with 0 by lia. reflexivity.
  - rewrite seq_S, List.filter_app, IH. cbn [List.filter Nat.add].
    case_bool_decide.
    + replace (Nat.min b (S m) - a) with (S (Nat.min b m - a)) by lia.
      rewrite seq_S. replace (a + (Nat.min b m - a)) with m by lia. reflexivity.
    + rewrite app_nil_r.
      replace (Nat.min b (S m) - a) with (Nat.min b m - a) by lia. reflexivity.
Qed.

Lemma removedAt_range o n i :
  removedAt o n i = bool_decide (length n <= i /\ i < length o).
Proof.
  unfold removedAt. apply bool_decide_ext. split.
  - intros [Ho Hn]. split; [apply lookup_ge_None, Hn|]. apply lookup_lt_is_Some.
    destruct (o !! i); [eauto | congruence].
  - intros [Hn Ho]. split; [|apply lookup_ge_None, Hn]. apply lookup_lt_is_Some in Ho.
    destruct Ho as [x Hx]. congruence.
Qed.

(** X11. [calculateChangedLines] reports as removed the indices past the
    end of the modified text, up to the end of the original one, and
    every index it reports as added is a line of the modified text; for
    two equal texts it reports nothing. *)
Theorem calculateChangedLines_ranges (o n : string) :
  cl_removed (calculateChangedLines o n) =
    seq (length (split LF n)) (length (split LF o) - length (split LF n)) /\
  Forall (fun i => i < length (split LF n)) (cl_added (calculateChangedLines o n)) /\
  calculateChangedLines n n = {| cl_added := []; cl_removed := [] |}.
Proof.
  split; [|split].
  - unfold calculateChangedLines. rewrite changed_fold. cbn [cl_removed app].
    rewrite (List.filter_ext _ _ (removedAt_range (split LF o) (split LF n))).
    rewrite filter_range. f_equal. lia.
  - rewrite Forall_forall. intros i Hi.
    apply list_elem_of_In, calculateChangedLines_added in Hi.
    destruct Hi as (m & Hm & _). apply lookup_lt_Some in Hm. exact Hm.
  - unfold calculateChangedLines. rewrite changed_fold. cbn [cl_added cl_removed app].
    f_equal.
    + rewrite (List.filter_ext _ (fun _ => false)); [apply List.filter_false|].
      intros i. unfold addedAt. apply bool_decide_eq_false_2. intros [H _]. congruence.
    + rewrite (List.filter_ext _ (fun _ => false)); [apply List.filter_false|].
      intros i. unfold removedAt. apply bool_decide_eq_false_2. intros [H H']. congruence.
Qed.

End DiffMore.

(** * Applying and reverting changes in the workspace *)

Module WorkspaceMore.
Import JS Aux DiffParser DiffManager Extension.
Import StringFacts DiffFacts DiffClaims DiffMore.

(** X12. When [applyChanges] succeeds, the workspace differs from the one
    before in the given file only, which holds the modified text; and
    every line it highlights is a line of that text. *)
Theorem applyChanges_writes_only_its_file (h : Host) (path n : string)
    (files' : gmap string string) (highlighted : list nat) :
  applyChanges h path n = Applied files' highlighted ->
  files' = <[path := n]> (files h) /\
  (forall q, q <> path -> files' !! q = files h !! q) /\
  Forall (fun i => i < length (split LF n)) highlighted.
Proof.
  unfold applyChanges. intros H.
  assert (Hgen : exists text,
    files' = <[path := n]> (files h) /\
    highlighted = cl_added (calculateChangedLines text n)).
  { destruct (files h !! path) as [text|]; [|destruct (createsFile h); [|discriminate H]];
      (destruct (appliesEdit h); [|discriminate H]);
      rewrite replaceRange_full in H; injection H as <- <-;
      rewrite ?insert_insert_eq; eauto. }
  destruct Hgen as (text & -> & ->). split; [reflexivity|]. split.
  - intros q Hq. now rewrite lookup_insert_ne.
  - apply (calculateChangedLines_ranges text n).
Qed.

Lemma applyChanges_witness :
  let h := {| files := {[ "doc.ts" := "a" ]}; createsFile := false; appliesEdit := true |} in
  <["doc.ts" := "b"]> (files h) = <["doc.ts" := "b"]> (files h) /\
  (forall q, q <> "doc.ts" -> <["doc.ts" := "b"]> (files h) !! q = files h !! q) /\
  Forall (fun i => i < length (split LF "b")) [0].
Proof.
  intros h.
  apply (applyChanges_writes_only_its_file h "doc.ts" "b" (<["doc.ts" := "b"]> (files h)) [0]).
  vm_compute. reflexivity.
Defined.

(** X13. When the file is not there and the host creates it, the file
    gets the modified text, and every line of that text is highlighted,
    except the first one when it is empty; when the host does not create
    the file, nothing is written and the workspace stays as it was. *)
Theorem applyChanges_creates_missing_file (h : Host) (path n : string) :
  files h !! path = None ->
  appliesEdit h = true ->
  (createsFile h = true ->
     exists highlighted,
       applyChanges h path n = Applied (<[path := n]> (files h)) highlighted /\
       forall i, In i highlighted <->
                 i < length (split LF n) /\ (i = 0 -> split LF n !! 0 <> Some EmptyString)) /\
  (createsFile h = false ->
     exists message, applyChanges h path n = Failed message (files h)).
Proof.
  intros Hnone Hok. unfold applyChanges. rewrite Hnone, Hok. split; intros ->.
  - eexists. split;
      [rewrite (replaceRange_full EmptyString n), insert_insert_eq; reflexivity|].
    intros i. rewrite calculateChangedLines_added.
    change (split LF EmptyString) with [EmptyString]. split.
    + intros (m & Hm & Hne). split; [apply lookup_lt_Some in Hm; exact Hm|].
      intros ->. cbn in Hne. congruence.
    + intros [Hlt H0]. destruct (lookup_lt_is_Some_2 _ _ Hlt) as [m Hm].
      exists m. split; [exact Hm|]. destruct i as [|i]; cbn.
      * specialize (H0 eq_refl). congruence.
      * discriminate.
  - eauto.
Qed.

Lemma applyChanges_creates_witness :
  let h := {| files := ∅; createsFile := true; appliesEdit := true |} in
  (createsFile h = true ->
     exists highlighted,
       applyChanges h "new.ts" "x" = Applied (<["new.ts" := "x"]> (files h)) highlighted /\
       forall i, In i highlighted <->
                 i < length (split LF "x") /\ (i = 0 -> split LF "x" !! 0 <> Some EmptyString)) /\
  (createsFile h = false ->
     exists message, applyChanges h "new.ts" "x" = Failed message (files h)).
Proof.
  intros h. apply (applyChanges_creates_missing_file h "new.ts" "x"); reflexivity.
Defined.

(** X14. Applying the same text a second time leaves the workspace as the
    first application left it, and highlights nothing. *)
Theorem applyChanges_twice (h : Host) (path n : string)
    (files' : gmap string string) (highlighted : list nat) :
  applyChanges h path n = Applied files' highlighted ->
  applyChanges {| files := files'; createsFile := createsFile h;
                  appliesEdit := appliesEdit h |} path n
  = Applied files' [].
Proof.
  intros H.
  destruct (applyChanges_writes_only_its_file _ _ _ _ _ H) as (-> & _ & _).
  assert (Hok : appliesEdit h = true).
  { destruct (appliesEdit h) eqn:E; [reflexivity|].
    unfold applyChanges in H. rewrite E in H.
    destruct (files h !! path); [discriminate H|].
    destruct (createsFile h); discriminate H. }
  rewrite (applyChanges_present _ path n n) by apply lookup_insert_eq.
  cbn [appliesEdit files]. rewrite Hok, insert_insert_eq.
  destruct (calculateChangedLines_ranges n n) as (_ & _ & ->). reflexivity.
Qed.

Lemma applyChanges_twice_witness :
  let h := {| files := {[ "doc.ts" := "a" ]}; createsFile := false; appliesEdit := true |} in
  applyChanges {| files := <["doc.ts" := "b"]> (files h); createsFile := createsFile h;
                  appliesEdit := appliesEdit h |} "doc.ts" "b"
  = Applied (<["doc.ts" := "b"]> (files h)) [].
Proof.
  intros h. apply (applyChanges_twice h "doc.ts" "b" _ [0]).
  vm_compute. reflexivity.
Defined.

(** X15. Reverting to a step right after its change was applied leaves
    the step's original text in the file, when that text is not empty
    and the host accepts both edits, and changes no other file.  The
    workspace is then the one before the change exactly when the file
    held the step's original text before the change. *)
Theorem revert_after_apply (h : Host) (path o n : string)
    (files' : gmap string string) (highlighted : list nat) :
  path <> EmptyString -> o <> EmptyString ->
  applyChanges h path n = Applied files' highlighted ->
  revertToStep {| files := files'; createsFile := createsFile h;
                  appliesEdit := appliesEdit h |}
    (Some {| sa_filePath := path;
             sa_diff := Some {| di_original := o; di_modified := n |} |})
    (Some "Revert")
  = (<[path := o]> (files h), Information "File reverted successfully") /\
  (<[path := o]> (files h) = files h <-> files h !! path = Some o).
Proof.
  intros Hp Ho H.
  destruct (applied_files _ _ _ _ _ H) as [-> Hok]. split.
  - unfold revertToStep. cbn [sa_filePath sa_diff di_original files appliesEdit].
    destruct (decide (path = EmptyString)); [congruence|].
    destruct (decide (Some "Revert" = Some "Revert")); [|congruence].
    destruct (decide (o = EmptyString)); [congruence|].
    rewrite lookup_insert_eq, replaceRange_full, insert_insert_eq, Hok.
    reflexivity.
  - split.
    + intros Heq. rewrite <- Heq. apply lookup_insert_eq.
    + intros Hf. apply insert_id, Hf.
Qed.

Lemma revert_after_apply_witness :
  let h := {| files := {[ "doc.ts" := "z" ]}; createsFile := false; appliesEdit := true |} in
  revertToStep {| files := <["doc.ts" := "b"]> (files h); createsFile := createsFile h;
                  appliesEdit := appliesEdit h |}
    (Some {| sa_filePath := "doc.ts";
             sa_diff := Some {| di_original := "a"; di_modified := "b" |} |})
    (Some "Revert")
  = (<["doc.ts" := "a"]> (files h), Information "File reverted successfully") /\
  (<["doc.ts" := "a"]> (files h) = files h <-> files h !! "doc.ts" = Some "a").
Proof.
  intros h. apply (revert_after_apply h "doc.ts" "a" "b" _ [0]).
  - discriminate.
  - discriminate.
  - vm_compute. reflexivity.
Defined.

(** X16. A step whose original text is empty is not reverted: whatever
    the answer to the question, the workspace stays as it is and nothing
    is shown.  So it is when the question is not answered by "Revert". *)
Theorem revert_does_nothing (h : Host) (step : StepArg) (confirm : option string) :
  (exists d, sa_diff step = Some d /\ di_original d = EmptyString) \/
  confirm <> Some "Revert" ->
  revertToStep h (Some step) confirm = (files h, Nothing).
Proof.
  intros H. unfold revertToStep.
  destruct (decide (sa_filePath step = EmptyString)); [reflexivity|].
  destruct (decide (confirm = Some "Revert")) as [Hc|Hc]; [|reflexivity].
  destruct H as [(d & Hd & Ho)|H]; [|congruence].
  rewrite Hd. destruct (decide (di_original d = EmptyString)); [reflexivity | congruence].
Qed.

Lemma revert_does_nothing_witness :
  let h := {| files := {[ "new.ts" := "x" ]}; createsFile := false; appliesEdit := true |} in
  revertToStep h
    (Some {| sa_filePath := "new.ts";
             sa_diff := Some {| di_original := ""; di_modified := "x" |} |})
    (Some "Revert")
  = (files h, Nothing).
Proof.
  intros h. apply (revert_does_nothing h). left. eexists. split; reflexivity.
Defined.

(** X17. The command reports a successful revert without looking at the
    answer of the host: when the host refuses the edit, the file keeps its
    text and "File reverted successfully" is shown all the same. *)
Theorem revert_reports_success_unchecked (h : Host) (path text o n : string) :
  files h !! path = Some text ->
  path <> EmptyString -> o <> EmptyString ->
  appliesEdit h = false ->
  revertToStep h
    (Some {| sa_filePath := path;
             sa_diff := Some {| di_original := o; di_modified := n |} |})
    (Some "Revert")
  = (files h, Information "File reverted successfully").
Proof.
  intros Hf Hp Ho Hr. unfold revertToStep. cbn [sa_filePath sa_diff di_original].
  destruct (decide (path = EmptyString)); [congruence|].
  destruct (decide (Some "Revert" = Some "Revert")); [|congruence].
  destruct (decide (o = EmptyString)); [congruence|].
  rewrite Hf, Hr. reflexivity.
Qed.

Lemma revert_reports_success_witness :
  let h := {| files := {[ "doc.ts" := "b" ]}; createsFile := false; appliesEdit := false |} in
  revertToStep h
    (Some {| sa_filePath := "doc.ts";
             sa_diff := Some {| di_original := "a"; di_modified := "b" |} |})
    (Some "Revert")
  = (files h, Information "File reverted successfully").
Proof.
  intros h. apply (revert_reports_success_unchecked h "doc.ts" "b" "a" "b").
  - vm_compute. reflexivity.
  - discriminate.
  - discriminate.
  - reflexivity.
Defined.

End WorkspaceMore.

(** * Further properties of the step store *)

Module StoreMore.
Import JS StepStore StepHistoryProvider StoreQueries StringFacts StoreFacts.

(** *** Properties of objects *)

Lemma getProp_setProp_eq o k v : getProp (setProp o k v) k = v.
Proof.
  induction o as [|[k' v'] o IH]; cbn.
  - destruct (decide (k = k)); [reflexivity | congruence].
  - destruct (decide (k' = k)) as [->|Hne]; cbn.
    + destruct (decide (k = k)); [reflexivity | congruence].
    + destruct (decide (k' = k)); [congruence | exact IH].
Qed.

Lemma getProp_setProp_ne o k k' v : k <> k' -> getProp (setProp o k v) k' = getProp o k'.
Proof.
  intros Hne. induction o as [|[k0 v0] o IH]; cbn.
  - destruct (decide (k = k')); [congruence | reflexivity].
  - destruct (decide (k0 = k)) as [->|Hk]; cbn.
    + destruct (decide (k = k')); [congruence | reflexivity].
    + destruct (decide (k0 = k')); [reflexivity | exact IH].
Qed.

Lemma isString_unique x s s' : isString x s = true -> s <> s' -> isString x s' = false.
Proof.
  destruct x; cbn; try discriminate. intros H Hne.
  apply bool_decide_eq_true in H. subst. now apply bool_decide_eq_false_2.
Qed.

(** *** Counting by status *)

Lemma deref_same st st' r : objects st' = objects st -> deref st' r = deref st r.
Proof. unfold deref. now intros ->. Qed.

Lemma arrayAt_alloc st l : arrayAt (snd (allocArray st l)) (fst (allocArray st l)) = l.
Proof. unfold arrayAt. cbn. now rewrite lookup_insert_eq. Qed.

Lemma byStatus_result status st st0 :
  wf st -> objects st = objects st0 -> contents st = contents st0 ->
  arrayAt (snd (getStepsByStatus status st)) (fst (getStepsByStatus status st)) =
  List.filter (hasStatus st0 status) (contents st0).
Proof.
  intros _ Ho Hc. unfold getStepsByStatus. rewrite arrayAt_alloc, Hc.
  apply List.filter_ext. intros r. unfold hasStatus. now rewrite (deref_same st0 st r).
Qed.

Lemma getStatistics_value st :
  wf st ->
  fst (getStatistics st) =
  {| total := length (contents st);
     accepted := length (List.filter (hasStatus st "accepted") (contents st));
     rejected := length (List.filter (hasStatus st "rejected") (contents st));
     pending := length (List.filter (hasStatus st "pending") (contents st)) |}.
Proof.
  intros Hwf. unfold getStatistics.
  pose proof (getStepsByStatus_frame "accepted" st Hwf)
    as (Hwf1 & _ & Hc1 & _ & _ & _ & Ho1).
  pose proof (byStatus_result "accepted" st st Hwf eq_refl eq_refl) as Ha.
  destruct (getStepsByStatus "accepted" st) as [a st1]. cbn [fst snd] in *.
  pose proof (getStepsByStatus_frame "rejected" st1 Hwf1)
    as (Hwf2 & _ & Hc2 & _ & _ & _ & Ho2).
  pose proof (byStatus_result "rejected" st1 st Hwf1 Ho1 Hc1) as Hr.
  destruct (getStepsByStatus "rejected" st1) as [r st2]. cbn [fst snd] in *.
  pose proof (byStatus_result "pending" st2 st Hwf2
                ltac:(congruence) ltac:(congruence)) as Hp.
  destruct (getStepsByStatus "pending" st2) as [p st3]. cbn [fst snd] in *.
  now rewrite Ha, Hr, Hp.
Qed.

Lemma three_filters {A} (p q r : A -> bool) (l : list A) :
  (forall x, p x = true -> q x = false /\ r x = false) ->
  (forall x, q x = true -> r x = false) ->
  length (List.filter p l) + length (List.filter q l) + length (List.filter r l)
    <= length l /\
  (Forall (fun x => p x || q x || r x = true) l ->
   length (List.filter p l) + length (List.filter q l) + length (List.filter r l)
     = length l).
Proof.
  intros Hp Hq. induction l as [|x l [IHle IHeq]]; [cbn; split; [lia | reflexivity]|].
  cbn [List.filter length].
  destruct (p x) eqn:Ep; [destruct (Hp x Ep) as [-> ->]|];
    [|destruct (q x) eqn:Eq; [rewrite (Hq x Eq)|]; [|destruct (r x) eqn:Er]];
    cbn [length]; (split; [lia|]); intros Hall; inversion Hall as [|? ? Hx Hl]; subst;
    try (specialize (IHeq Hl); lia).
  rewrite Ep, Eq, Er in Hx. discriminate Hx.
Qed.

(** X18. In the statistics of the store, the numbers of accepted,
    rejected and pending steps together never exceed the total, and they
    add up to it when every step has one of the three statuses. *)
Theorem getStatistics_counts (st : State) :
  wf st ->
  total (fst (getStatistics st)) = length (contents st) /\
  accepted (fst (getStatistics st)) + rejected (fst (getStatistics st)) +
    pending (fst (getStatistics st)) <= total (fst (getStatistics st)) /\
  (Forall (fun r => hasStatus st "accepted" r || hasStatus st "rejected" r
                    || hasStatus st "pending" r = true) (contents st) ->
   accepted (fst (getStatistics st)) + rejected (fst (getStatistics st)) +
     pending (fst (getStatistics st)) = total (fst (getStatistics st))).
Proof.
  intros Hwf. rewrite (getStatistics_value st Hwf). cbn [total accepted rejected pending].
  split; [reflexivity|].
  apply three_filters.
  - intros r H. unfold hasStatus in *.
    split; apply (isString_unique _ _ _ H); discriminate.
  - intros r H. unfold hasStatus in *. apply (isString_unique _ _ _ H). discriminate.
Qed.

Lemma getStatistics_witness :
  let st := addStep 0 (snd (allocObject create [("id", VStr "1"); ("status", VStr "pending")])) in
  total (fst (getStatistics st)) = length (contents st) /\
  accepted (fst (getStatistics st)) + rejected (fst (getStatistics st)) +
    pending (fst (getStatistics st)) <= total (fst (getStatistics st)) /\
  (Forall (fun r => hasStatus st "accepted" r || hasStatus st "rejected" r
                    || hasStatus st "pending" r = true) (contents st) ->
   accepted (fst (getStatistics st)) + rejected (fst (getStatistics st)) +
     pending (fst (getStatistics st)) = total (fst (getStatistics st))).
Proof.
  intros st. apply (getStatistics_counts st). exists [0]. vm_compute. reflexivity.
Defined.

(** *** Adding, finding and removing steps *)

Lemma find_snoc {A} (p : A -> bool) l x :
  List.find p (l ++ [x]) =
  match List.find p l with
  | Some y => Some y
  | None => if p x then Some x else None
  end.
Proof.
  induction l as [|y l IH]; cbn; [reflexivity|].
  destruct (p y); [reflexivity | exact IH].
Qed.

Lemma find_ext_fun {A} (p q : A -> bool) l :
  (forall x, p x = q x) -> List.find p l = List.find q l.
Proof.
  intros H. induction l as [|y l IH]; cbn; [reflexivity|].
  rewrite H, IH. reflexivity.
Qed.

Lemma hasId_objects st st' id r :
  objects st' = objects st -> hasId st' id r = hasId st id r.
Proof. intros H. unfold hasId. now rewrite (deref_same st st' r H). Qed.

Lemma contents_addStep step st : contents (addStep step st) = contents st ++ [step].
Proof. unfold addStep, contents. cbn. now rewrite lookup_insert_eq. Qed.

(** X19. After a step is added, a search for its id finds the step that
    a search found before, if there was one with that id, and the new
    step otherwise: of two steps with the same id the earlier one is
    found. *)
Theorem getStepById_after_addStep (st : State) (step : loc) (id : string) :
  hasId st id step = true ->
  getStepById id (addStep step st) =
  match getStepById id st with
  | Some earlier => Some earlier
  | None => Some step
  end.
Proof.
  intros Hid. unfold getStepById. rewrite contents_addStep, find_snoc.
  rewrite (find_ext_fun (hasId (addStep step st) id) (hasId st id))
    by (intros r; apply hasId_objects; reflexivity).
  rewrite (hasId_objects st (addStep step st) id step eq_refl), Hid.
  reflexivity.
Qed.

Lemma getStepById_after_addStep_witness :
  let st := snd (allocObject create [("id", VStr "7")]) in
  getStepById "7" (addStep 0 st) =
  match getStepById "7" st with
  | Some earlier => Some earlier
  | None => Some 0
  end.
Proof.
  intros st. apply (getStepById_after_addStep st 0 "7"). reflexivity.
Defined.

Lemma findIndex_spec {A} (p : A -> bool) l i :
  findIndex p l = Some i ->
  exists x, l !! i = Some x /\ p x = true /\ List.find p l = Some x.
Proof.
  revert i. induction l as [|y l IH]; intros i; cbn; [discriminate|].
  destruct (p y) eqn:Ey.
  - intros [= <-]. exists y. auto.
  - destruct (findIndex p l) as [j|]; cbn; [|discriminate].
    intros [= <-]. destruct (IH j eq_refl) as (x & Hx & Hp & Hf). exists x. auto.
Qed.

Lemma find_findIndex {A} (p : A -> bool) l x :
  List.find p l = Some x -> is_Some (findIndex p l).
Proof.
  induction l as [|y l IH]; cbn; [discriminate|].
  destruct (p y); [eauto|]. intros H. destruct (IH H) as [j ->]. cbn. eauto.
Qed.

Lemma length_splice1 {A} (l : list A) i x :
  l !! i = Some x -> S (length (splice1 i l)) = length l.
Proof.
  intros H. apply lookup_lt_Some in H. unfold splice1.
  rewrite length_app, length_firstn, length_skipn. lia.
Qed.

Lemma find_splice1 {A} (q : A -> bool) (l : list A) i x :
  l !! i = Some x -> q x = false -> List.find q (splice1 i l) = List.find q l.
Proof.
  unfold splice1. revert i. induction l as [|y l IH]; intros [|i]; cbn; try discriminate.
  - intros [= ->] ->. reflexivity.
  - intros H Hq. rewrite (IH i H Hq). reflexivity.
Qed.

Lemma sublist_splice1 {A} (l : list A) i : sublist (splice1 i l) l.
Proof.
  unfold splice1. revert i. induction l as [|y l IH]; intros [|i]; cbn.
  - constructor.
  - constructor.
  - apply sublist_cons. reflexivity.
  - apply sublist_skip, IH.
Qed.

(** X20. Removing a step by an id that is in the store takes one step
    out and keeps the others in their order; a search for any other id
    finds what it found before. *)
Theorem removeStep_takes_one_out (st : State) (id : string) (found : loc) :
  getStepById id st = Some found ->
  S (length (contents (removeStep id st))) = length (contents st) /\
  sublist (contents (removeStep id st)) (contents st) /\
  (forall id', id' <> id -> getStepById id' (removeStep id st) = getStepById id' st).
Proof.
  intros Hf. unfold getStepById in Hf.
  destruct (find_findIndex _ _ _ Hf) as [i Hi].
  destruct (findIndex_spec _ _ _ Hi) as (x & Hx & Hp & Hfx).
  rewrite (removeStep_contents id i st Hi).
  split; [apply (length_splice1 _ _ _ Hx)|]. split; [apply sublist_splice1|].
  intros id' Hne. unfold getStepById. rewrite (removeStep_contents id i st Hi).
  assert (Hobj : objects (removeStep id st) = objects st).
  { unfold removeStep. rewrite Hi. reflexivity. }
  rewrite (find_ext_fun (hasId (removeStep id st) id') (hasId st id'))
    by (intros r; apply hasId_objects, Hobj).
  apply (find_splice1 _ _ _ _ Hx).
  unfold hasId in *. apply (isString_unique _ _ _ Hp). congruence.
Qed.

Lemma removeStep_witness :
  let st := addStep 0 (snd (allocObject create [("id", VStr "7")])) in
  S (length (contents (removeStep "7" st))) = length (contents st) /\
  sublist (contents (removeStep "7" st)) (contents st) /\
  (forall id', id' <> "7" -> getStepById id' (removeStep "7" st) = getStepById id' st).
Proof.
  intros st. apply (removeStep_takes_one_out st "7" 0). reflexivity.
Defined.

(** *** Changing the status of a step *)

Lemma updateStepStatus_found id status step st :
  getStepById id st = Some step ->
  objects (updateStepStatus id status st) =
    <[step := setProp (deref st step) "status" (VStr status)]> (objects st) /\
  arrays (updateStepStatus id status st) = arrays st /\
  steps (updateStepStatus id status st) = steps st.
Proof. intros H. unfold updateStepStatus. rewrite H. repeat split. Qed.

(** X21. Changing the status of a step by its id writes the status into
    the first step that has the id, and nothing else: the other properties
    of that step, the other steps and the order of the steps stay as they
    were, and the id still finds the same step. *)
Theorem updateStepStatus_changes_status_only (st : State) (id status : string) (step : loc) :
  getStepById id st = Some step ->
  getProp (deref (updateStepStatus id status st) step) "status" = VStr status /\
  (forall k, k <> "status" ->
     getProp (deref (updateStepStatus id status st) step) k = getProp (deref st step) k) /\
  (forall other, other <> step ->
     deref (updateStepStatus id status st) other = deref st other) /\
  contents (updateStepStatus id status st) = contents st /\
  getStepById id (updateStepStatus id status st) = Some step.
Proof.
  intros Hf. destruct (updateStepStatus_found id status step st Hf) as (Ho & Ha & Hs).
  assert (Hd : deref (updateStepStatus id status st) step =
               setProp (deref st step) "status" (VStr status)).
  { unfold deref at 1. rewrite Ho, lookup_insert_eq. reflexivity. }
  assert (Hother : forall other, other <> step ->
            deref (updateStepStatus id status st) other = deref st other).
  { intros other Hne. unfold deref. rewrite Ho, lookup_insert_ne by congruence.
    reflexivity. }
  assert (Hc : contents (updateStepStatus id status st) = contents st).
  { unfold contents. now rewrite Ha, Hs. }
  split; [rewrite Hd; apply getProp_setProp_eq|].
  split; [intros k Hk; rewrite Hd; apply getProp_setProp_ne; congruence|].
  split; [exact Hother|]. split; [exact Hc|].
  unfold getStepById in *. rewrite Hc, <- Hf. apply find_ext_fun. intros r.
  unfold hasId. destruct (decide (r = step)) as [->|Hne].
  - rewrite Hd, getProp_setProp_ne by discriminate. reflexivity.
  - now rewrite Hother.
Qed.

Lemma updateStepStatus_witness :
  let st := addStep 0 (snd (allocObject create [("id", VStr "7"); ("status", VStr "pending")])) in
  getProp (deref (updateStepStatus "7" "accepted" st) 0) "status" = VStr "accepted" /\
  (forall k, k <> "status" ->
     getProp (deref (updateStepStatus "7" "accepted" st) 0) k = getProp (deref st 0) k) /\
  (forall other, other <> 0 ->
     deref (updateStepStatus "7" "accepted" st) other = deref st other) /\
  contents (updateStepStatus "7" "accepted" st) = contents st /\
  getStepById "7" (updateStepStatus "7" "accepted" st) = Some 0.
Proof.
  intros st. apply (updateStepStatus_changes_status_only st "7" "accepted" 0). reflexivity.
Defined.

(** *** Importing steps *)

Lemma allocObjects_spec os : forall st,
  (forall r o, objects st !! r = Some o ->
               objects (snd (allocObjects st os)) !! r = Some o) /\
  Forall2 (fun r o => objects (snd (allocObjects st os)) !! r = Some o)
    (fst (allocObjects st os)) os.
Proof.
  induction os as [|o os IH]; intros st; cbn [allocObjects allocObject].
  - split; [auto | constructor].
  - destruct (IH (setObject st (fresh (dom (objects st))) o)) as [Hkeep Hnew].
    destruct (allocObjects (setObject st (fresh (dom (objects st))) o) os)
      as [rs st2]. cbn [fst snd] in *.
    assert (Hr : objects st2 !! fresh (dom (objects st)) = Some o).
    { apply Hkeep. cbn. apply lookup_insert_eq. }
    split.
    + intros r x Hx. apply Hkeep. cbn. rewrite lookup_insert_ne; [exact Hx|].
      intros <-. pose proof (is_fresh (dom (objects st))) as Hfresh.
      apply Hfresh, elem_of_dom. eauto.
    + constructor; assumption.
Qed.

Lemma map_deref rs os st :
  Forall2 (fun r o => objects st !! r = Some o) rs os -> map (deref st) rs = os.
Proof.
  induction 1 as [|r o rs os Hr _ IH]; [reflexivity|].
  cbn [map]. rewrite IH. f_equal.
  exact (f_equal (fun x : option Obj => default [] x) Hr).
Qed.

Lemma importFromJSON_array imported os st :
  wf st ->
  reviveAll imported = Some os ->
  exists st', importFromJSON (Some (VArr imported)) st = Returned st' /\
    view st' = os /\
    arrays st' !! steps st = arrays st !! steps st.
Proof.
  intros Hwf Hos. unfold importFromJSON. rewrite Hos.
  pose proof (allocObjects_spec os st) as [_ Hnew].
  pose proof (allocObjects_frame os st) as (_ & _ & Harr & Hsteps).
  destruct (allocObjects st os) as [rs st1]. cbn [fst snd] in *.
  cbn [allocArray]. eexists. split; [reflexivity|]. split.
  - unfold view, contents. cbn. rewrite lookup_insert_eq. cbn.
    rewrite <- (map_deref rs os st1 Hnew). apply map_ext. intros r. reflexivity.
  - cbn. rewrite Harr. rewrite lookup_insert_ne; [reflexivity|].
    apply fresh_array_ne, Hwf.
Qed.

Lemma numToString_inj i j : numToString i = numToString j -> i = j.
Proof.
  intros E. rewrite <- (parseInt_numToString i), <- (parseInt_numToString j), E.
  reflexivity.
Qed.

Lemma numToString_not_timestamp i : "timestamp" <> numToString i.
Proof.
  intros E. pose proof (parseInt_numToString i) as Hi. rewrite <- E in Hi.
  cbv in Hi. subst i. cbv in E. discriminate E.
Qed.

(** The properties that the spread of an array or of a string makes:
    each element under its index. *)
Lemma getProp_indexed {A} (f : A -> Value) (l : list A) : forall k i u,
  l !! i = Some u ->
  getProp (imap (fun j x => (numToString (k + j), f x)) l) (numToString (k + i)) = f u.
Proof.
  induction l as [|x l IH]; intros k i u Hi; [discriminate Hi|].
  cbn [imap getProp]. destruct i as [|i].
  - injection Hi as ->. destruct (decide _) as [_|Hne]; [reflexivity|].
    exfalso. apply Hne. reflexivity.
  - destruct (decide _) as [E|_]; [apply numToString_inj in E; lia|].
    rewrite <- (IH (S k) i u Hi).
    replace (S k + i) with (k + S i) by lia.
    f_equal. apply imap_ext. intros j y _. cbn. rewrite Nat.add_succ_r. reflexivity.
Qed.

Lemma revive_timestamp v o :
  revive v = Some o ->
  (exists t, getProp o "timestamp" = VDate t) /\
  (forall props k, v = VObj props -> k <> "timestamp" -> getProp o k = getProp props k) /\
  (forall s i u, v = VStr s -> codeUnits s !! i = Some u ->
     getProp o (numToString i) = VStr u).
Proof.
  unfold revive, newDate. destruct (readTimestamp v) as [t|] eqn:Et; [|discriminate].
  cbn. destruct (convertible t); [|discriminate]. cbn. intros [= <-]. split; [|split].
  - exists t. apply getProp_setProp_eq.
  - intros props k -> Hk. cbn. apply getProp_setProp_ne. congruence.
  - intros s i u -> Hi. cbn [spread].
    rewrite getProp_setProp_ne by apply numToString_not_timestamp.
    apply (getProp_indexed VStr (codeUnits s) 0 i u Hi).
Qed.

(** X22. Importing an array whose elements can all be turned into steps
    (none is [null], and no timestamp is an object with a property
    [toString], or an array that holds such an object, itself or in an
    array inside it) puts one step in the store for each element, in the
    order of the array, in place of the steps that were there; each step
    has a [Date] as its timestamp and, when the element is an object, the
    other properties of the element, when it is a string, its UTF-16
    code units under their indices.  The array that the store held before
    is not written to. *)
Theorem importFromJSON_replaces_steps (imported : list Value) (st : State) :
  wf st ->
  forallb revivable imported = true ->
  exists st', importFromJSON (Some (VArr imported)) st = Returned st' /\
    Forall2 (fun v o =>
               (exists t, getProp o "timestamp" = VDate t) /\
               (forall props k, v = VObj props -> k <> "timestamp" ->
                  getProp o k = getProp props k) /\
               (forall s i u, v = VStr s -> codeUnits s !! i = Some u ->
                  getProp o (numToString i) = VStr u))
      imported (view st') /\
    length (view st') = length imported /\
    arrays st' !! steps st = arrays st !! steps st.
Proof.
  intros Hwf Hnn. apply reviveAll_is_Some in Hnn. destruct Hnn as [os Hos].
  destruct (importFromJSON_array imported os st Hwf Hos) as (st' & Hrun & Hview & Hold).
  exists st'. split; [exact Hrun|]. rewrite Hview.
  unfold reviveAll in Hos. apply mapM_Some in Hos.
  split; [|split; [|exact Hold]].
  - clear -Hos. induction Hos as [|v o vs os Hv _ IH]; constructor; [|exact IH].
    apply revive_timestamp, Hv.
  - symmetry. eapply Forall2_length, Hos.
Qed.

Lemma importFromJSON_witness :
  let imported := [VObj [("id", VStr "7")]; VNum "3"; VStr "ab"] in
  exists st', importFromJSON (Some (VArr imported)) (addStep 0 create) = Returned st' /\
    Forall2 (fun v o =>
               (exists t, getProp o "timestamp" = VDate t) /\
               (forall props k, v = VObj props -> k <> "timestamp" ->
                  getProp o k = getProp props k) /\
               (forall s i u, v = VStr s -> codeUnits s !! i = Some u ->
                  getProp o (numToString i) = VStr u))
      imported (view st') /\
    length (view st') = length imported /\
    arrays st' !! steps (addStep 0 create) = arrays (addStep 0 create) !! steps (addStep 0 create).
Proof.
  intros imported. apply (importFromJSON_replaces_steps imported (addStep 0 create)).
  - exists [0]. vm_compute. reflexivity.
  - reflexivity.
Defined.

(** *** After [dispose] *)

Lemma run_no_listeners op st :
  listeners st = [] ->
  calls (stateOf (run op st)) = calls st /\ listeners (stateOf (run op st)) = [].
Proof.
  intros Hl.
  assert (Hfire : forall x, listeners x = [] -> calls x = calls st ->
            calls (fire x) = calls st /\ listeners (fire x) = []).
  { intros x Hx Hc. cbn. rewrite Hx, Hc. cbn. rewrite app_nil_r. split; reflexivity. }
  destruct op; cbn [run stateOf]; try (split; [reflexivity | exact Hl]).
  - apply Hfire; [exact Hl | reflexivity].
  - unfold updateStepStatus. destruct (getStepById id st); [|split; [reflexivity | exact Hl]].
    apply Hfire; [exact Hl | reflexivity].
  - unfold removeStep. destruct (findIndex (hasId st id) (contents st));
      [|split; [reflexivity | exact Hl]].
    apply Hfire; [exact Hl | reflexivity].
  - apply Hfire; [exact Hl | reflexivity].
  - destruct parsed as [[| | | | | |imported|]|]; cbn [importFromJSON stateOf];
      try (split; [reflexivity | exact Hl]).
    destruct (reviveAll imported) as [os|]; cbn [stateOf];
      [|split; [reflexivity | exact Hl]].
    pose proof (allocObjects_frame os st) as (Hl1 & Hc1 & _).
    destruct (allocObjects st os) as [rs st1]. cbn [fst snd allocArray stateOf] in *.
    apply Hfire; cbn; congruence.
Qed.

(** X23. Once the store is disposed of, no call of its methods calls a
    callback, however many calls are made. *)
Theorem dispose_silences_callbacks (ops : list Op) (st : State) :
  calls (runAll ops (dispose st)) = calls st.
Proof.
  unfold runAll.
  assert (H : forall s, listeners s = [] ->
            calls (fold_left (fun s op => stateOf (run op s)) ops s) = calls s).
  { induction ops as [|op ops IH]; intros s Hs; cbn [fold_left]; [reflexivity|].
    destruct (run_no_listeners op s Hs) as [Hc Hl]. rewrite (IH _ Hl). exact Hc. }
  apply (H (dispose st)). reflexivity.
Qed.

(** *** The listing of the tree view *)

Lemma getChildren_root st :
  let a := fresh (dom (arrays st)) in
  fst (getChildren None st) = a /\
  arrays (snd (getChildren None st)) = <[a := rev (contents st)]> (arrays st) /\
  objects (snd (getChildren None st)) = objects st /\
  steps (snd (getChildren None st)) = steps st /\
  calls (snd (getChildren None st)) = calls st.
Proof.
  intros a. unfold getChildren. cbn [getAllSteps allocArray].
  unfold mutateArray. cbn [arrays setArray]. rewrite lookup_insert_eq. cbn.
  rewrite insert_insert_eq. repeat split.
Qed.

(** X24. Asking twice for the children of the root gives the steps
    newest first both times, in two different arrays, and the store keeps
    its steps oldest first; below a step there are no children. *)
Theorem getChildren_twice (st : State) (element : loc) :
  wf st ->
  let first := getChildren None st in
  let second := getChildren None (snd first) in
  arrayAt (snd second) (fst first) = rev (contents st) /\
  arrayAt (snd second) (fst second) = rev (contents st) /\
  fst first <> fst second /\
  contents (snd second) = contents st /\
  arrayAt (snd (getChildren (Some element) st)) (fst (getChildren (Some element) st)) = [].
Proof.
  intros Hwf first second.
  destruct (getChildren_root st) as (Ha1 & Harr1 & Hobj1 & Hs1 & _).
  destruct (getChildren_root (snd first)) as (Ha2 & Harr2 & Hobj2 & Hs2 & _).
  fold first in Ha1, Harr1, Hobj1, Hs1. fold second in Ha2, Harr2, Hobj2, Hs2.
  pose proof (fresh_array_ne st Hwf) as Hne1.
  assert (Hc1 : contents (snd first) = contents st).
  { unfold contents. rewrite Harr1, Hs1, lookup_insert_ne by exact Hne1. reflexivity. }
  assert (Hwf1 : wf (snd first)).
  { unfold wf. rewrite Harr1, Hs1, lookup_insert_ne by exact Hne1. exact Hwf. }
  pose proof (fresh_array_ne (snd first) Hwf1) as Hne2.
  assert (Hne12 : fst first <> fst second).
  { rewrite Ha1, Ha2. intros E.
    pose proof (is_fresh (dom (arrays (snd first)))) as Hfresh.
    apply Hfresh. rewrite <- E, Harr1. apply elem_of_dom.
    rewrite lookup_insert_eq. eauto. }
  split; [|split; [|split; [|split]]].
  - unfold arrayAt. rewrite Harr2, lookup_insert_ne by (rewrite <- Ha2; congruence).
    rewrite Harr1, Ha1, lookup_insert_eq. reflexivity.
  - unfold arrayAt. rewrite Harr2, Ha2, lookup_insert_eq. rewrite <- Hc1. reflexivity.
  - exact Hne12.
  - unfold contents. rewrite Harr2, Hs2, lookup_insert_ne by exact Hne2.
    exact Hc1.
  - cbn [getChildren]. apply arrayAt_alloc.
Qed.

Lemma getChildren_twice_witness :
  let st := addStep 1 (addStep 0 create) in
  let first := getChildren None st in
  let second := getChildren None (snd first) in
  arrayAt (snd second) (fst first) = rev (contents st) /\
  arrayAt (snd second) (fst second) = rev (contents st) /\
  fst first <> fst second /\
  contents (snd second) = contents st /\
  arrayAt (snd (getChildren (Some 0) st)) (fst (getChildren (Some 0) st)) = [].
Proof.
  intros st. apply (getChildren_twice st 0). exists [0; 1]. vm_compute. reflexivity.
Defined.

End StoreMore.

(** * What the tree view shows of a step *)

Module DisplayMore.
Import JS JSMore AuxMore StepTreeItem StringFacts.

(** *** The relative time *)

Lemma nlt_Some x k : nlt (Some x) k = true <-> (x < k)%Z.
Proof. cbn. apply Z.ltb_lt. Qed.

Lemma nlt_Some_false x k : nlt (Some x) k = false <-> (k <= x)%Z.
Proof. cbn. apply Z.ltb_ge. Qed.

(** X25. For two times less than 2^52 milliseconds apart, the relative
    time is "just now" below one minute (and for a time to come), then
    the whole minutes up to 59, then the whole hours up to 23, then the
    whole days; for an invalid date it reads "NaNd ago". *)
Theorem formatRelativeTime_buckets (now t : Z) :
  (Z.abs (now - t) < 2 ^ 52)%Z ->
  let d := (now - t)%Z in
  ((d < 60000)%Z -> formatRelativeTime now (Some t) = "just now") /\
  ((60000 <= d < 3600000)%Z ->
     formatRelativeTime now (Some t) = nToString (Some (d / 60000)%Z) +:+ "m ago" /\
     (1 <= d / 60000 <= 59)%Z) /\
  ((3600000 <= d < 86400000)%Z ->
     formatRelativeTime now (Some t) = nToString (Some (d / 3600000)%Z) +:+ "h ago" /\
     (1 <= d / 3600000 <= 23)%Z) /\
  ((86400000 <= d)%Z ->
     formatRelativeTime now (Some t) = nToString (Some (d / 86400000)%Z) +:+ "d ago" /\
     (1 <= d / 86400000)%Z) /\
  formatRelativeTime now None = "NaNd ago".
Proof.
  intros _ d. unfold formatRelativeTime. cbn [nsub floorDiv]. fold d.
  pose proof (Z.div_mod d 60000 ltac:(lia)) as Hm.
  pose proof (Z.mod_pos_bound d 60000 ltac:(lia)) as Hmb.
  pose proof (Z.div_mod d 3600000 ltac:(lia)) as Hh.
  pose proof (Z.mod_pos_bound d 3600000 ltac:(lia)) as Hhb.
  pose proof (Z.div_mod d 86400000 ltac:(lia)) as Hd.
  pose proof (Z.mod_pos_bound d 86400000 ltac:(lia)) as Hdb.
  assert (Hhours : (d / 60000 / 60 = d / 3600000)%Z)
    by (rewrite Z.div_div by lia; reflexivity).
  assert (Hdays : (d / 60000 / 1440 = d / 86400000)%Z)
    by (rewrite Z.div_div by lia; reflexivity).
  split; [|split; [|split; [|split]]].
  - intros Hlt.
    rewrite (proj2 (nlt_Some (d / 60000) 1)) by lia. reflexivity.
  - intros [Hlo Hhi].
    rewrite (proj2 (nlt_Some_false (d / 60000) 1)) by lia.
    rewrite (proj2 (nlt_Some (d / 60000) 60)) by lia.
    split; [reflexivity | lia].
  - intros [Hlo Hhi].
    rewrite (proj2 (nlt_Some_false (d / 60000) 1)) by lia.
    rewrite (proj2 (nlt_Some_false (d / 60000) 60)) by lia.
    rewrite (proj2 (nlt_Some (d / 60000) 1440)) by lia.
    rewrite Hhours. split; [reflexivity | lia].
  - intros Hlo.
    rewrite (proj2 (nlt_Some_false (d / 60000) 1)) by lia.
    rewrite (proj2 (nlt_Some_false (d / 60000) 60)) by lia.
    rewrite (proj2 (nlt_Some_false (d / 60000) 1440)) by lia.
    rewrite Hdays. split; [reflexivity | lia].
  - reflexivity.
Qed.

Lemma formatRelativeTime_witness :
  let d := (7200000 - 0)%Z in
  ((d < 60000)%Z -> formatRelativeTime 7200000 (Some 0%Z) = "just now") /\
  ((60000 <= d < 3600000)%Z ->
     formatRelativeTime 7200000 (Some 0%Z) = nToString (Some (d / 60000)%Z) +:+ "m ago" /\
     (1 <= d / 60000 <= 59)%Z) /\
  ((3600000 <= d < 86400000)%Z ->
     formatRelativeTime 7200000 (Some 0%Z) = nToString (Some (d / 3600000)%Z) +:+ "h ago" /\
     (1 <= d / 3600000 <= 23)%Z) /\
  ((86400000 <= d)%Z ->
     formatRelativeTime 7200000 (Some 0%Z) = nToString (Some (d / 86400000)%Z) +:+ "d ago" /\
     (1 <= d / 86400000)%Z) /\
  formatRelativeTime 7200000 None = "NaNd ago".
Proof.
  apply (formatRelativeTime_buckets 7200000 0). vm_compute. reflexivity.
Defined.

(** *** The file name *)

Lemma split_noChar c s : noChar c s = true -> split c s = [s].
Proof.
  induction s as [|a r IH]; cbn; [reflexivity|].
  destruct (decide (a = c)); [discriminate|].
  intros Hs. rewrite (IH Hs). reflexivity.
Qed.

Lemma split_app_sep c a b : split c (a +:+ String c b) = split c a ++ split c b.
Proof.
  induction a as [|x a IH].
  - change (EmptyString +:+ String c b) with (String c b). cbn [split app].
    destruct (decide (c = c)); [reflexivity | congruence].
  - change (String x a +:+ String c b) with (String x (a +:+ String c b)).
    cbn [split]. rewrite IH. destruct (decide (x = c)); [reflexivity|].
    destruct (split c a) as [|h t] eqn:E; [now apply split_nonempty in E|].
    reflexivity.
Qed.

Lemma pop_split_after c a b : pop (split c (a +:+ String c b)) = pop (split c b).
Proof.
  unfold pop. rewrite split_app_sep, last_app.
  destruct (last (split c b)) eqn:E; [reflexivity|].
  apply last_None in E. now apply split_nonempty in E.
Qed.

(** X26. The file name shown for a step is what follows the last slash
    of its path; a path without slash is shown whole, and so is a path
    that ends with a slash. *)
Theorem fileName_last_segment (dir name : string) :
  noChar "/" name = true ->
  (name <> EmptyString -> fileName (dir +:+ "/" +:+ name) = name) /\
  fileName name = name /\
  fileName (dir +:+ "/") = dir +:+ "/".
Proof.
  intros Hn. unfold fileName.
  change (dir +:+ "/" +:+ name) with (dir +:+ String "/" name).
  change (dir +:+ "/") with (dir +:+ String "/" EmptyString).
  rewrite !pop_split_after, (split_noChar _ _ Hn). cbn.
  split; [|split].
  - intros Hne. destruct name; [congruence | reflexivity].
  - destruct name; reflexivity.
  - reflexivity.
Qed.

Lemma fileName_witness :
  ("c.ts" <> EmptyString -> fileName ("a/b" +:+ "/" +:+ "c.ts") = "c.ts") /\
  fileName "c.ts" = "c.ts" /\
  fileName ("a/b" +:+ "/") = "a/b" +:+ "/".
Proof. apply (fileName_last_segment "a/b" "c.ts"). reflexivity. Defined.

End DisplayMore.

(** * Accepting and rejecting a proposal *)

Module ChatMore.
Import JS DiffManager StepStore ChatViewProvider StoreFacts StoreMore DiffClaims.

Lemma recorded_step st o step :
  let st' := addStep (fst (allocObject st o)) (snd (allocObject st o)) in
  step = fst (allocObject st o) ->
  contents st' = contents st ++ [step] /\
  deref st' step = o /\
  (forall r, is_Some (objects st !! r) -> deref st' r = deref st r) /\
  calls st' = calls st ++ map (fun l => {| callee := l; seen := view st' |}) (listeners st).
Proof.
  intros st' ->. subst st'. cbn [allocObject fst snd].
  split; [|split; [|split]].
  - rewrite contents_addStep. unfold contents. reflexivity.
  - unfold deref. cbn. now rewrite lookup_insert_eq.
  - intros r Hr. unfold deref. cbn. rewrite lookup_insert_ne; [reflexivity|].
    intros <-. pose proof (is_fresh (dom (objects st))) as Hfresh.
    apply Hfresh, elem_of_dom, Hr.
  - reflexivity.
Qed.



(** X28. When the host refuses the edit of a file that is there or that
    it creates, accepting leaves the store as it is and posts nothing;
    the proposal stays pending, and the error that is shown carries the
    prefix twice.  The workspace stays as it was when the file was
    there; when it was not, the workspace has the new, empty file. *)
Theorem accept_refused_keeps_proposal (idClock tsClock : nat) (model : string)
    (c : Provider) (p : CodeChangeProposal) :
  currentProposal c = Some p -> hasView c = true ->
  appliesEdit (host c) = false ->
  is_Some (files (host c) !! cp_filePath p) \/ createsFile (host c) = true ->
  let c' := acceptCurrentProposal idClock tsClock model c in
  stepStore c' = stepStore c /\ posted c' = posted c /\
  currentProposal c' = Some p /\
  notices c' = notices c ++
    [ErrorNotice "Failed to apply changes: Failed to apply changes: Failed to apply workspace edit"] /\
  createsFile (host c') = createsFile (host c) /\
  appliesEdit (host c') = appliesEdit (host c) /\
  (is_Some (files (host c) !! cp_filePath p) -> files (host c') = files (host c)) /\
  (files (host c) !! cp_filePath p = None ->
     files (host c') = <[cp_filePath p := EmptyString]> (files (host c))).
Proof.
  intros Hp Hv Hr Hopen c'. subst c'.
  unfold acceptCurrentProposal, acceptBegin. rewrite Hp, Hv. cbn [negb].
  unfold acceptEdit, applyChanges. cbn [fst snd]. rewrite Hr.
  destruct (files (host c) !! cp_filePath p) as [text|] eqn:Hf.
  - cbn. rewrite Hp. repeat split; try assumption. discriminate.
  - destruct Hopen as [[text Ht]|Hc]; [discriminate Ht|]. rewrite Hc.
    cbn. rewrite Hp. repeat split; try assumption.
    intros [text Ht]. discriminate Ht.
Qed.

Lemma accept_refused_witness :
  let p := {| cp_filePath := "new.ts"; cp_originalContent := "";
              cp_modifiedContent := "b"; cp_diff := ""; cp_description := "edit" |} in
  let c := {| hasView := true; currentProposal := Some p;
              stepStore := create;
              host := {| files := {[ "doc.ts" := "a" ]}; createsFile := true;
                         appliesEdit := false |};
              posted := []; notices := [] |} in
  let c' := acceptCurrentProposal 5 6 "m" c in
  stepStore c' = stepStore c /\ posted c' = posted c /\
  currentProposal c' = Some p /\
  notices c' = notices c ++
    [ErrorNotice "Failed to apply changes: Failed to apply changes: Failed to apply workspace edit"] /\
  createsFile (host c') = createsFile (host c) /\
  appliesEdit (host c') = appliesEdit (host c) /\
  (is_Some (files (host c) !! cp_filePath p) -> files (host c') = files (host c)) /\
  (files (host c) !! cp_filePath p = None ->
     files (host c') = <[cp_filePath p := EmptyString]> (files (host c))).
Proof.
  intros p c. apply (accept_refused_keeps_proposal 5 6 "m" c p).
  - reflexivity.
  - reflexivity.
  - reflexivity.
  - right. reflexivity.
Defined.

(** X29. Rejecting the pending proposal leaves the workspace as it is,
    appends one step with status "rejected" after the steps of the store,
    calls every callback once, and forgets the proposal: nothing is left
    to accept or to reject.  A proposal that arrives while another one is
    pending takes its place, and no step is recorded for the one it
    replaces. *)
Theorem reject_records_step (idClock tsClock : nat) (model : string) (c : Provider)
    (p q : CodeChangeProposal) :
  currentProposal c = Some p -> hasView c = true ->
  let c' := rejectCurrentProposal idClock tsClock model c in
  let step := fresh (dom (objects (stepStore c))) in
  host c' = host c /\
  contents (stepStore c') = contents (stepStore c) ++ [step] /\
  deref (stepStore c') step = makeStep idClock tsClock model "rejected" p /\
  calls (stepStore c') =
    calls (stepStore c) ++
    map (fun l => {| callee := l; seen := view (stepStore c') |})
      (listeners (stepStore c)) /\
  posted c' = posted c ++ [PostedProposalRejected] /\
  acceptCurrentProposal idClock tsClock model c' = c' /\
  rejectCurrentProposal idClock tsClock model c' = c' /\
  stepStore (handleProposalChunk (Some q) c) = stepStore c /\
  currentProposal (handleProposalChunk (Some q) c) = Some q.
Proof.
  intros Hp Hv c' step.
  assert (Hc' : c' =
    {| hasView := hasView c; currentProposal := None;
       stepStore := addStep step (setObject (stepStore c) step
                      (makeStep idClock tsClock model "rejected" p));
       host := host c;
       posted := posted c ++ [PostedProposalRejected];
       notices := notices c ++ [InformationNotice "Changes rejected"] |}).
  { subst c'. unfold rejectCurrentProposal. rewrite Hp, Hv. reflexivity. }
  destruct (recorded_step (stepStore c) (makeStep idClock tsClock model "rejected" p)
              step eq_refl) as (H1 & H2 & _ & H4).
  rewrite Hc'. cbn [host stepStore posted].
  unfold handleProposalChunk. rewrite Hv. cbn [negb stepStore currentProposal].
  repeat split; assumption.
Qed.

Lemma reject_witness_provider :
  let p := {| cp_filePath := "doc.ts"; cp_originalContent := "a";
              cp_modifiedContent := "b"; cp_diff := ""; cp_description := "edit" |} in
  let c := {| hasView := true; currentProposal := Some p;
              stepStore := onDidChangeSteps 1 create;
              host := {| files := {[ "doc.ts" := "a" ]}; createsFile := false;
                         appliesEdit := true |};
              posted := []; notices := [] |} in
  let c' := rejectCurrentProposal 5 6 "m" c in
  let step := fresh (dom (objects (stepStore c))) in
  host c' = host c /\
  contents (stepStore c') = contents (stepStore c) ++ [step] /\
  deref (stepStore c') step = makeStep 5 6 "m" "rejected" p /\
  calls (stepStore c') =
    calls (stepStore c) ++
    map (fun l => {| callee := l; seen := view (stepStore c') |})
      (listeners (stepStore c)) /\
  posted c' = posted c ++ [PostedProposalRejected] /\
  acceptCurrentProposal 5 6 "m" c' = c' /\
  rejectCurrentProposal 5 6 "m" c' = c' /\
  stepStore (handleProposalChunk (Some p) c) = stepStore c /\
  currentProposal (handleProposalChunk (Some p) c) = Some p.
Proof.
  intros p c. apply (reject_records_step 5 6 "m" c p p); reflexivity.
Defined.

End ChatMore.

(** * The context of an inline completion *)

Module InlineMore.
Import JS InlineCompletionProvider.

Lemma mapM_lookup_seq (l : list string) k : forall a,
  a + k <= length l ->
  mapM (fun i => l !! i) (seq a k) = Some (take k (drop a l)).
Proof.
  induction k as [|k IH]; intros a Hle; [reflexivity|].
  cbn [seq mapM]. destruct (lookup_lt_is_Some_2 l a ltac:(lia)) as [y Hy].
  rewrite Hy. cbn. rewrite (IH (S a)) by lia. cbn.
  rewrite (drop_S l y a Hy). reflexivity.
Qed.

(** X30. For a line of the document, the context is made of the twenty
    lines before it, or of all the lines before it when they are fewer,
    and never of the line itself; for a line number past the end of the
    document, reading the context throws. *)
Theorem getContextLines_previous_lines (document : list string) (currentLine : nat) :
  (currentLine <= length document ->
     getContextLines document currentLine =
     Some (join nl (take (Nat.min currentLine 20) (drop (currentLine - 20) document)))) /\
  (length document < currentLine -> getContextLines document currentLine = None).
Proof.
  unfold getContextLines. rewrite Nat.max_0_l. split.
  - intros Hle. rewrite mapM_lookup_seq by lia. cbn.
    replace (currentLine - (currentLine - 20)) with (Nat.min currentLine 20) by lia.
    reflexivity.
  - intros Hlt.
    destruct (mapM (fun i => document !! i)
                (seq (currentLine - 20) (currentLine - (currentLine - 20)))) as [ls|] eqn:E;
      [|reflexivity].
    exfalso. assert (Hs : is_Some (mapM (fun i => document !! i)
                (seq (currentLine - 20) (currentLine - (currentLine - 20))))) by eauto.
    apply mapM_is_Some in Hs. rewrite Forall_forall in Hs.
    destruct (Hs (currentLine - 1)) as [x Hx].
    + apply list_elem_of_In, in_seq. lia.
    + apply lookup_lt_Some in Hx. lia.
Qed.

Lemma getContextLines_witness :
  getContextLines ["a"; "b"; "c"] 2 =
  Some (join nl (take (Nat.min 2 20) (drop (2 - 20) ["a"; "b"; "c"]))).
Proof.
  apply (proj1 (getContextLines_previous_lines ["a"; "b"; "c"] 2)). simpl. lia.
Defined.

End InlineMore.
